(** * FezMogilev: greeting inserts generated from a Word table

    A shallow embedding of [main.py]: the table extractor ([_norm],
    [_tcs_from_row_xml], [_text_from_tc], [read_rows_from_docx]), the
    output naming ([output_filename_from_docx]), the overlay renderer
    ([draw_text_block], [make_overlay_pdf]) and the page compositor
    ([generate_pdf]), followed by the properties proved about them. *)

From Stdlib Require Import ZArith NArith QArith List String Ascii Bool Lia.
From Stdlib Require Import DecimalString Qabs Qround.
From stdpp Require Import base list.
Import ListNotations.

Local Open Scope list_scope.

(* ================================================================== *)
(** * Part I: definitions *)
(* ================================================================== *)

(** ** Python strings *)

(** A Python [str] is a sequence of Unicode code points. *)
Definition char := N.
Definition str := list char.

(** ASCII literals of the source, as code points. *)
Fixpoint lit (s : string) : str :=
  match s with
  | EmptyString => []
  | String a r => N_of_ascii a :: lit r
  end.
Arguments lit s%_string.

Definition NBSP : char := 0xA0%N.
Definition SPACE : char := 0x20%N.

(** [str.isspace] on one code point, the test behind [str.strip()] and
    [str.split()] without arguments. *)
Definition isspace (c : char) : bool :=
  ((0x09 <=? c) && (c <=? 0x0D) || (0x1C <=? c) && (c <=? 0x20)
   || (c =? 0x85) || (c =? 0xA0) || (c =? 0x1680)
   || (0x2000 <=? c) && (c <=? 0x200A)
   || (c =? 0x2028) || (c =? 0x2029) || (c =? 0x202F) || (c =? 0x205F)
   || (c =? 0x3000))%N.

(** [s.startswith(p)] *)
Fixpoint startswith (p s : str) : bool :=
  match p, s with
  | [], _ => true
  | _ :: _, [] => false
  | a :: p', b :: s' => (a =? b)%N && startswith p' s'
  end.

(** [s.replace(old, new)] for a non-empty [old]: occurrences are replaced
    left to right without overlap; [skip] counts the code points of an
    occurrence that are still to be passed over. *)
Fixpoint replace_from (old new : str) (skip : nat) (s : str) : str :=
  match s with
  | [] => []
  | c :: r =>
      match skip with
      | S k => replace_from old new k r
      | O =>
          if startswith old s
          then new ++ replace_from old new (Nat.pred (length old)) r
          else c :: replace_from old new 0 r
      end
  end.

Definition replace (old new : str) (s : str) : str := replace_from old new 0 s.

(** [s.lstrip()], [s.rstrip()], [s.strip()] *)
Fixpoint lstrip (s : str) : str :=
  match s with
  | [] => []
  | c :: r => if isspace c then lstrip r else s
  end.

Fixpoint rstrip (s : str) : str :=
  match s with
  | [] => []
  | c :: r =>
      match rstrip r with
      | [] => if isspace c then [] else [c]
      | r' => c :: r'
      end
  end.

Definition strip (s : str) : str := rstrip (lstrip s).

(** [s.split()]: the maximal runs of non-whitespace code points, in order.
    A non-whitespace code point opens a word when whitespace or the end
    follows it, and otherwise extends the word that starts right after. *)
Fixpoint split (s : str) : list str :=
  match s with
  | [] => []
  | c :: r =>
      if isspace c then split r
      else
        match r with
        | [] => [[c]]
        | d :: _ =>
            if isspace d then [c] :: split r
            else
              match split r with
              | w :: ws => (c :: w) :: ws
              | [] => [[c]]
              end
        end
  end.

(** [sep.join(parts)] *)
Fixpoint join (sep : str) (parts : list str) : str :=
  match parts with
  | [] => []
  | w :: ws =>
      match ws with
      | [] => w
      | _ :: _ => w ++ sep ++ join sep ws
      end
  end.

(** [s or ""] *)
Definition or_empty (s : str) : str :=
  match s with
  | [] => []
  | _ :: _ => s
  end.

(** [def _norm(s)]:
    [" ".join((s or "").replace("\xa0", " ").strip().split())] *)
Definition _norm (s : str) : str :=
  join (lit " ") (split (strip (replace [NBSP] (lit " ") (or_empty s)))).

(** *** Normalization as the specification words it

    Three passes: non-breaking spaces become ordinary spaces, every run of
    whitespace becomes one ASCII space, and the ends are trimmed. *)
Definition replace_nbsp (s : str) : str :=
  map (fun c => if (c =? NBSP)%N then SPACE else c) s.

(** [in_run] tells that the code point before [s] was whitespace, so the
    space for the current run is already written. *)
Fixpoint collapse_runs (in_run : bool) (s : str) : str :=
  match s with
  | [] => []
  | c :: r =>
      if isspace c
      then (if in_run then collapse_runs true r else SPACE :: collapse_runs true r)
      else c :: collapse_runs false r
  end.

Definition trim (s : str) : str := rstrip (lstrip s).

Definition norm_spec (s : str) : str :=
  trim (collapse_runs false (replace_nbsp s)).

(** ** Exceptions and results *)

(** The diagnostics of [main.py], one constructor per message; the row
    number is the one formatted into the text. *)
Inductive message :=
| NoTableInDocx                       (* "no table found in the .docx" *)
| BadTableIndex (idx : Z) (n : nat)   (* "bad DOCX_TABLE_INDEX=idx, tables: n" *)
| TooFewCells (row : nat)             (* "row ROW has fewer than 3 cells" *)
| EmptyName (row : nat)               (* "empty name in row ROW" *)
| EmptyGreeting (row : nat)           (* "empty greeting column in row ROW" *)
| EmptyDear (row : nat)               (* "empty salutation column in row ROW" *)
| NoFilledRow                         (* "no filled row to generate pages from" *)
| NoTemplate                          (* "template.pdf not found" *)
| NoFont                              (* "font file not found" *)
| TemplateTooShort.                   (* "template.pdf needs at least 2 pages" *)

Inductive exn :=
| ValueError (m : message)
| FileNotFoundError (m : message)
| PackageNotFoundError        (* docx.Document on a missing package *)
| ZoneInfoNotFoundError       (* zoneinfo.ZoneInfo on an unknown key *)
| IndexError
| KeyError                    (* str.format on a missing field *)
| TTFError                    (* reportlab's TTFont on a file that is no usable font *)
| InvalidPage.                (* a page reference outside the store *)

Inductive result (A : Type) :=
| Ok (a : A)
| Raise (e : exn).
Arguments Ok {A} a.
Arguments Raise {A} e.

#[global] Instance result_ret : MRet result := fun A a => Ok a.
#[global] Instance result_bind : MBind result := fun A B f r =>
  match r with
  | Ok a => f a
  | Raise e => Raise e
  end.

(** [l[i]] on a Python list *)
Definition getitem {A} (l : list A) (i : nat) : result A :=
  match l !! i with
  | Some a => Ok a
  | None => Raise IndexError
  end.

(** ** XML trees as lxml presents them *)

(** Element tags are strings in Clark notation, [{namespace}local]. Text is
    a child node of its element; comments and processing instructions are
    [Misc]. Attributes are never read by the program and are left out. *)
#[local] Set Warnings "-register-all".
Inductive xml :=
| Elem (tag : string) (children : list xml)
| Text (data : str)
| Misc.

Definition W_NS : string :=
  "http://schemas.openxmlformats.org/wordprocessingml/2006/main".

(** [f"{{{W_NS}}}local"], also the expansion of the XPath name test
    [w:local] under [NS = {"w": W_NS}]. *)
Definition w_tag (local : string) : string :=
  ("{" ++ W_NS ++ "}" ++ local)%string.

Definition children (n : xml) : list xml :=
  match n with
  | Elem _ kids => kids
  | _ => []
  end.

(** [child.tag == tag] *)
Definition has_tag (tag : string) (n : xml) : bool :=
  match n with
  | Elem t _ => String.eqb t tag
  | _ => false
  end.

(** One XPath location step [child::tag] from each node of a context list,
    results in document order. *)
Definition xpath_child (tag : string) (ctx : list xml) : list xml :=
  flat_map (fun n => List.filter (has_tag tag) (children n)) ctx.

(** [def _tcs_from_row_xml(tr_xml)]. The row markup is given as the tree
    it parses to; the loop over the children carries [out]. *)
Definition _tcs_from_row_xml (tr : xml) : list xml :=
  fold_left
    (fun out child =>
       if has_tag (w_tag "tc") child then out ++ [child]
       else if has_tag (w_tag "sdt") child then
         let tcs := xpath_child (w_tag "tc") (xpath_child (w_tag "sdtContent") [child]) in
         out ++ tcs
       else out)
    (children tr) [].

(** The text nodes selected by [.//w:t/text()] below a node, in document
    order: [under_t] tells whether the parent of [n] is a [w:t] element. *)
Fixpoint text_nodes (under_t : bool) (n : xml) : list str :=
  match n with
  | Text s => if under_t then [s] else []
  | Elem tag kids => flat_map (text_nodes (String.eqb tag (w_tag "t"))) kids
  | Misc => []
  end.

(** [def _text_from_tc(tc)]: the [w:t] elements are proper descendants of
    the context node, so the walk starts at its children. *)
Definition _text_from_tc (tc : xml) : str :=
  let parts := flat_map (text_nodes false) (children tc) in
  concat parts.

(** *** The unwrapped cells as the specification words them *)

(** What one row-level child contributes: itself when it is a table cell,
    the table cells directly inside the content bodies of a content
    control, and nothing otherwise. *)
Definition cell_contribution (child : xml) : list xml :=
  match child with
  | Elem t kids =>
      if String.eqb t (w_tag "tc") then [child]
      else if String.eqb t (w_tag "sdt") then
        flat_map (fun body =>
                    if has_tag (w_tag "sdtContent") body
                    then List.filter (has_tag (w_tag "tc")) (children body)
                    else [])
                 kids
      else []
  | _ => []
  end.

Definition unwrapped_cells_spec (tr : xml) : list xml :=
  flat_map cell_contribution (children tr).

(** ** The Word document (python-docx) *)

(** [table.rows[i]._tr] for each row, and [doc.tables]. *)
Record Table := { rows : list xml }.
Record Document := { tables : list Table }.

Record RowData := { name : str; greeting : str; dear : str }.

Definition DOCX_TABLE_INDEX : Z := 0.
Definition HAS_HEADER_ROW : bool := true.
Definition SKIP_EMPTY_ROWS : bool := true.

(** [not s] on a string or a list *)
Definition is_empty {A} (s : list A) : bool :=
  match s with
  | [] => true
  | _ :: _ => false
  end.

(** The body of the loop of [read_rows_from_docx] at index [i]:
    [Ok None] is [continue], [Ok (Some r)] is [out.append(r)]. *)
Definition read_row (i : nat) (tr : xml) : result (option RowData) :=
  let tcs := _tcs_from_row_xml tr in
  if length tcs <? 3 then Raise (ValueError (TooFewCells (i + 1)))
  else
    tc0 ← getitem tcs 0;
    tc1 ← getitem tcs 1;
    tc2 ← getitem tcs 2;
    let name := _norm (_text_from_tc tc0) in
    let greeting := _norm (_text_from_tc tc1) in
    let dear := _norm (_text_from_tc tc2) in
    if SKIP_EMPTY_ROWS && (is_empty name && is_empty greeting && is_empty dear)
    then Ok None
    else if is_empty name then Raise (ValueError (EmptyName (i + 1)))
    else if is_empty greeting then Raise (ValueError (EmptyGreeting (i + 1)))
    else if is_empty dear then Raise (ValueError (EmptyDear (i + 1)))
    else Ok (Some {| name := name; greeting := greeting; dear := dear |}).

(** [for i in range(i, len(table.rows))] over the rows from index [i] on. *)
Fixpoint rows_loop (i : nat) (trs : list xml) (out : list RowData)
  : result (list RowData) :=
  match trs with
  | [] => Ok out
  | tr :: rest =>
      r ← read_row i tr;
      match r with
      | None => rows_loop (S i) rest out
      | Some row => rows_loop (S i) rest (out ++ [row])
      end
  end.

(** The body of [read_rows_from_docx] after [doc = Document(docx_path)]. *)
Definition read_rows (doc : Document) : result (list RowData) :=
  if is_empty (tables doc) then Raise (ValueError NoTableInDocx)
  else if (DOCX_TABLE_INDEX <? 0)%Z
          || (DOCX_TABLE_INDEX >=? Z.of_nat (length (tables doc)))%Z
  then Raise (ValueError (BadTableIndex DOCX_TABLE_INDEX (length (tables doc))))
  else
    table ← getitem (tables doc) (Z.to_nat DOCX_TABLE_INDEX);
    let start_idx := if HAS_HEADER_ROW then 1 else 0 in
    out ← rows_loop start_idx (drop start_idx (rows table)) [];
    if is_empty out then Raise (ValueError NoFilledRow)
    else Ok out.

(** *** Vocabulary for statements about rows *)

Definition w_tr (kids : list xml) : xml := Elem (w_tag "tr") kids.
Definition w_tc (kids : list xml) : xml := Elem (w_tag "tc") kids.
Definition w_sdt (kids : list xml) : xml := Elem (w_tag "sdt") kids.
Definition w_sdtContent (kids : list xml) : xml := Elem (w_tag "sdtContent") kids.
Definition w_t (s : str) : xml := Elem (w_tag "t") [Text s].

(** A cell holding one paragraph with one run of text. *)
Definition text_cell (s : str) : xml :=
  w_tc [Elem (w_tag "p") [Elem (w_tag "r") [w_t s]]].

(** A run of consecutive cells of a row as it was authored: directly in the
    row, or inside one content control whose content body holds the cells
    and whose remaining children (its properties) are [before] and
    [after]. *)
Inductive cell_group :=
| Direct (cells : list xml)
| Wrapped (before after : list xml) (cells : list xml).

Definition group_cells (g : cell_group) : list xml :=
  match g with
  | Direct cells => cells
  | Wrapped _ _ cells => cells
  end.

Definition group_nodes (g : cell_group) : list xml :=
  match g with
  | Direct cells => cells
  | Wrapped before after cells =>
      [w_sdt (before ++ [w_sdtContent cells] ++ after)]
  end.

Definition authored_row (gs : list cell_group) : xml :=
  w_tr (flat_map group_nodes gs).

(** The cells are table cells and the properties are not content bodies. *)
Definition group_ok (g : cell_group) : bool :=
  match g with
  | Direct cells => forallb (has_tag (w_tag "tc")) cells
  | Wrapped before after cells =>
      forallb (has_tag (w_tag "tc")) cells
      && forallb (fun n => negb (has_tag (w_tag "sdtContent") n)) (before ++ after)
  end.

(** The three normalized texts of a row with at least three cells. *)
Definition row_fields (tr : xml) : option (str * str * str) :=
  match _tcs_from_row_xml tr with
  | tc0 :: tc1 :: tc2 :: _ =>
      Some (_norm (_text_from_tc tc0), _norm (_text_from_tc tc1),
            _norm (_text_from_tc tc2))
  | _ => None
  end.

Definition blank_row (tr : xml) : bool :=
  match row_fields tr with
  | Some (n, g, d) => is_empty n && is_empty g && is_empty d
  | None => false
  end.

Definition fully_populated (tr : xml) : bool :=
  match row_fields tr with
  | Some (n, g, d) => negb (is_empty n) && negb (is_empty g) && negb (is_empty d)
  | None => false
  end.

(** The record of a fully populated row. *)
Definition row_record (tr : xml) : option RowData :=
  match row_fields tr with
  | Some (n, g, d) =>
      if fully_populated tr
      then Some {| name := n; greeting := g; dear := d |}
      else None
  | None => None
  end.

(** The data rows of a document: the rows of the selected table after the
    header row. *)
Definition data_rows (doc : Document) : list xml :=
  match tables doc !! Z.to_nat DOCX_TABLE_INDEX with
  | Some table => drop (if HAS_HEADER_ROW then 1 else 0) (rows table)
  | None => []
  end.

Definition row_passes (tr : xml) : bool := blank_row tr || fully_populated tr.

(** ** Numbers *)

(** Python floats are taken as rationals: the program only passes them on
    and divides the colour components by 255. *)
Definition float := Q.

(** ** PDF pages and files (pypdf, reportlab) *)

(** The operators a canvas writes to a content stream; [Other] stands for
    whatever else a template page holds. *)
Inductive op :=
| SaveState
| RestoreState
| Translate (dx dy : float)
| Rotate (theta : float)
| SetFillColorRGB (r g b : float)
| SetFont (psfontname : string) (size : float)
| DrawString (x y : float) (text : str)
| DrawCentredString (x y : float) (text : str)
| Other (code : str).

(** [mediabox.width], [mediabox.height] *)
Record RectangleObject := { width : float; height : float }.

(** A page: its media box and its content streams in drawing order. *)
Record PageObject := {
  mediabox : RectangleObject;
  contents : list (list op)
}.

(** The bytes of a PDF file, given as the document they encode: the
    creation time of the document information when there is one, and the
    pages. *)
Record PdfFile := {
  creation_date : option Z;
  file_pages : list PageObject
}.

(** ** The world the program runs in *)

Record World := {
  (** [time k] is the system clock, in POSIX seconds, at its [k]-th reading *)
  time : nat -> Z;
  (** the time zone database: the UTC offset in seconds of a zone at a
      POSIX time, for the keys it knows *)
  zoneinfo : string -> option (Z -> Z);
  (** the UTC offset of the time zone the process runs in *)
  local_utcoffset : Z -> Z;
  (** [str.isalnum] on one code point, from the Unicode database *)
  isalnum : char -> bool;
  (** the Word documents by path *)
  docx : str -> option Document;
  (** [template.pdf], when it exists *)
  template_pdf : option PdfFile;
  (** whether the font file exists *)
  font_ttf : bool;
  (** whether the font file, when it exists, can be loaded as a TrueType
      font *)
  font_loads : bool
}.

(** [def read_rows_from_docx(docx_path)]: [Document(docx_path)] opens the
    document found at the path. *)
Definition read_rows_from_docx (w : World) (docx_path : str) : result (list RowData) :=
  match docx w docx_path with
  | Some doc => read_rows doc
  | None => Raise PackageNotFoundError
  end.

(** ** Page objects, the clock, and the monad of the program

    Page objects are mutable and shared by reference: the store holds them
    by address, an address being a position in [heap]. [ticks] counts the
    readings of the clock so far. *)
Definition addr := nat.

Record store := {
  heap : list PageObject;
  ticks : nat
}.

Definition M (A : Type) : Type := store -> result (A * store).

#[global] Instance M_ret : MRet M := fun A a st => Ok (a, st).
#[global] Instance M_bind : MBind M := fun A B f m st =>
  match m st with
  | Ok (a, st') => f a st'
  | Raise e => Raise e
  end.

Definition raise {A} (e : exn) : M A := fun _ => Raise e.

Definition lift {A} (r : result A) : M A := fun st =>
  match r with
  | Ok a => Ok (a, st)
  | Raise e => Raise e
  end.

(** [time.time()] *)
Definition read_clock (w : World) : M Z := fun st =>
  Ok (time w (ticks st), {| heap := heap st; ticks := S (ticks st) |}).

(** A new page object. *)
Definition alloc (p : PageObject) : M addr := fun st =>
  Ok (length (heap st), {| heap := heap st ++ [p]; ticks := ticks st |}).

Definition deref (a : addr) : M PageObject := fun st =>
  match heap st !! a with
  | Some p => Ok (p, st)
  | None => Raise InvalidPage
  end.

Definition assign (a : addr) (p : PageObject) : M unit := fun st =>
  Ok (tt, {| heap := <[a := p]> (heap st); ticks := ticks st |}).

(** *** pypdf *)

(** [PdfReader(io.BytesIO(b))]: every reader parses its own page objects;
    [reader.pages[i]] is the [i]-th of them. *)
Record PdfReader := { reader_pages : list addr }.

Fixpoint alloc_all (ps : list PageObject) : M (list addr) :=
  match ps with
  | [] => mret []
  | p :: ps' => a ← alloc p; rest ← alloc_all ps'; mret (a :: rest)
  end.

Definition PdfReader_open (b : PdfFile) : M PdfReader :=
  pages ← alloc_all (file_pages b);
  mret {| reader_pages := pages |}.

(** [PdfWriter()]: the pages added so far and, for each source page object
    already cloned into the writer, its clone. *)
Record PdfWriter := {
  writer_pages : list addr;
  cloned : list (addr * addr)
}.

Definition PdfWriter_new : PdfWriter := {| writer_pages := []; cloned := [] |}.

Fixpoint clone_of (page : addr) (memo : list (addr * addr)) : option addr :=
  match memo with
  | [] => None
  | (src, c) :: rest => if Nat.eqb src page then Some c else clone_of page rest
  end.

(** [writer.add_page(page)]: the writer appends its own clone of the page
    and returns it; a source page object cloned before is not cloned
    again, its clone is appended once more. *)
Definition add_page (writer : PdfWriter) (page : addr) : M (PdfWriter * addr) :=
  match clone_of page (cloned writer) with
  | Some c =>
      mret ({| writer_pages := writer_pages writer ++ [c];
               cloned := cloned writer |}, c)
  | None =>
      p ← deref page;
      c ← alloc p;
      mret ({| writer_pages := writer_pages writer ++ [c];
               cloned := (page, c) :: cloned writer |}, c)
  end.

(** The page [page.merge_page(page2)] leaves in [page]: the content of
    [page2] is drawn on top, the media box stays. *)
Definition merged (page page2 : PageObject) : PageObject :=
  {| mediabox := mediabox page;
     contents := contents page ++ contents page2 |}.

Definition merge_page (page page2 : addr) : M unit :=
  p ← deref page;
  p2 ← deref page2;
  assign page (merged p p2).

Fixpoint deref_all (l : list addr) : M (list PageObject) :=
  match l with
  | [] => mret []
  | a :: l' => p ← deref a; ps ← deref_all l'; mret (p :: ps)
  end.

(** [writer.write(f)]: the bytes written. *)
Definition PdfWriter_write (writer : PdfWriter) : M PdfFile :=
  ps ← deref_all (writer_pages writer);
  mret {| creation_date := None; file_pages := ps |}.

(** *** reportlab *)

(** [canvas.Canvas(buf, pagesize=...)]: the page size, the operators of
    the page in progress, the pages shown so far, and the time stamp the
    document takes when the canvas is created (no [invariant] is passed,
    so it is the current time). *)
Record Canvas := {
  _pagesize : float * float;
  _code : list op;
  _shown : list PageObject;
  _timeStamp : Z
}.

Definition Canvas_new (now : Z) (pagesize : float * float) : Canvas :=
  {| _pagesize := pagesize; _code := []; _shown := []; _timeStamp := now |}.

Definition emit (o : op) (c : Canvas) : Canvas :=
  {| _pagesize := _pagesize c; _code := _code c ++ [o];
     _shown := _shown c; _timeStamp := _timeStamp c |}.

Definition saveState := emit SaveState.
Definition restoreState := emit RestoreState.
Definition translate (dx dy : float) := emit (Translate dx dy).
Definition rotate (theta : float) := emit (Rotate theta).
Definition setFillColorRGB (r g b : float) := emit (SetFillColorRGB r g b).
(** [c.setFont] looks the font up among the registered ones. The registry
    is not part of the canvas here: [generate_pdf] registers the font
    (see [registerFont]) before the first canvas is made, and fails there
    when it cannot. *)
Definition setFont (psfontname : string) (size : float) := emit (SetFont psfontname size).
Definition drawString (x y : float) (text : str) := emit (DrawString x y text).
Definition drawCentredString (x y : float) (text : str) := emit (DrawCentredString x y text).

(** [c.showPage()]: the page in progress is closed with the page size of
    the canvas and a new one starts. *)
Definition showPage (c : Canvas) : Canvas :=
  {| _pagesize := _pagesize c;
     _code := [];
     _shown := _shown c ++ [ {| mediabox := {| width := fst (_pagesize c);
                                               height := snd (_pagesize c) |};
                                contents := [_code c] |} ];
     _timeStamp := _timeStamp c |}.

(** *** Numbers as reportlab writes them ([reportlab.lib.rl_accel.fp_str])

    Every number of a page dictionary, the media box included, goes into
    the file as decimal text of a limited count of decimals. A float is
    the rational it stands for, and the text is given as the number it
    denotes, which is the number a reader of the file gets back. *)

Fixpoint pow10 (l : nat) : positive :=
  match l with
  | O => 1%positive
  | S l => (10 * pow10 l)%positive
  end.

(** The integer nearest to [a / b] for [0 < b], a half going to the even
    neighbour. *)
Definition round_half_even (a b : Z) : Z :=
  let f := (a / b)%Z in
  let r2 := (2 * (a mod b))%Z in
  if (r2 <? b)%Z then f
  else if (b <? r2)%Z then (f + 1)%Z
  else if Z.even f then f else (f + 1)%Z.

(** The number that the text ['%.{l}f' % x] denotes. *)
Definition format_f (l : nat) (x : float) : float :=
  Qred (round_half_even (Qnum x * Zpos (pow10 l)) (Zpos (Qden x)) # pow10 l).

(** The count of the digits of [n] after the first, for [1 <= n]. *)
Fixpoint digits_after_first (fuel : nat) (n : Z) : Z :=
  match fuel with
  | O => 0%Z
  | S fuel => if (n <? 10)%Z then 0%Z else (1 + digits_after_first fuel (n / 10))%Z
  end.

(** [int(log10(sa))] for [1 <= sa], the logarithm taken exactly. *)
Definition int_log10 (sa : float) : Z :=
  let n := Qfloor sa in digits_after_first (Z.to_nat (Z.log2 n)) n.

(** The count of decimals that [fp_str] keeps:
    [sa<=1 and 6 or min(max(0,(6-int(_log_10(sa)))),6)]. *)
Definition fp_decimals (x : float) : nat :=
  let sa := Qabs x in
  if Qle_bool sa 1 then 6
  else Z.to_nat (Z.min (Z.max 0 (6 - int_log10 sa)) 6).

(** [fp_str(x)]: nothing but [0] for a magnitude up to [1e-7], else the
    number formatted to [fp_decimals x] decimals; the zeros dropped at the
    end of the text and a zero dropped at its start leave the number as it
    is. *)
Definition fp_str (x : float) : float :=
  if Qle_bool (Qabs x) (1 # 10000000) then 0%Q
  else format_f (fp_decimals x) x.

(** A page as the file holds it: its media box is written with [fp_str].
    The operators of the content stream stay the calls that made them. *)
Definition written (page : PageObject) : PageObject :=
  {| mediabox := {| width := fp_str (width (mediabox page));
                    height := fp_str (height (mediabox page)) |};
     contents := contents page |}.

(** [c.save()] followed by [buf.getvalue()]: a page in progress that has
    operators is shown first. *)
Definition save (c : Canvas) : PdfFile :=
  let c := if is_empty (_code c) then c else showPage c in
  {| creation_date := Some (_timeStamp c); file_pages := map written (_shown c) |}.

(** ** Date and time (datetime, zoneinfo) *)

Definition TZ_NAME : string := "Europe/Minsk".

Record datetime := {
  year : Z; month : Z; day : Z;
  hour : Z; minute : Z; second : Z
}.

(** The proleptic Gregorian date of a day counted from 1970-01-01. *)
Definition civil_from_days (days : Z) : Z * Z * Z :=
  (let z := days + 719468 in
  let era := z / 146097 in
  let doe := z - era * 146097 in
  let yoe := (doe - doe / 1460 + doe / 36524 - doe / 146096) / 365 in
  let doy := doe - (365 * yoe + yoe / 4 - yoe / 100) in
  let mp := (5 * doy + 2) / 153 in
  let d := doy - (153 * mp + 2) / 5 + 1 in
  let m := if mp <? 10 then mp + 3 else mp - 9 in
  let y := yoe + era * 400 in
  (if m <=? 2 then y + 1 else y, m, d))%Z.

(** The wall-clock reading at POSIX time [t] in a zone. *)
Definition fromtimestamp (t : Z) (utcoffset : Z -> Z) : datetime :=
  (let wall := t + utcoffset t in
  let '(y, m, d) := civil_from_days (wall / 86400) in
  let secs := wall mod 86400 in
  {| year := y; month := m; day := d;
     hour := secs / 3600; minute := secs mod 3600 / 60; second := secs mod 60 |})%Z.

(** [ZoneInfo(key)] *)
Definition ZoneInfo (w : World) (key : string) : result (Z -> Z) :=
  match zoneinfo w key with
  | Some tz => Ok tz
  | None => Raise ZoneInfoNotFoundError
  end.

(** [datetime.now(tz)] *)
Definition datetime_now (w : World) (tz : Z -> Z) : M datetime :=
  t ← read_clock w;
  mret (fromtimestamp t tz).

(** ** String formatting and paths *)

(** [f"{z:0{width}d}"] *)
Definition digits (n : N) : str := lit (NilEmpty.string_of_uint (N.to_uint n)).

Definition zfill (width : nat) (s : str) : str :=
  repeat 0x30%N (width - length s) ++ s.

Definition format_d (width : nat) (z : Z) : str :=
  if (z <? 0)%Z then lit "-" ++ zfill (width - 1) (digits (Z.to_N (- z)))
  else zfill width (digits (Z.to_N z)).

(** A format string: literal text and replacement fields. *)
Inductive piece :=
| Lit (s : str)
| Field (key : string).

(** [fmt.format(dear=row.dear, name=row.name, greeting=row.greeting)] *)
Definition field_value (row : RowData) (key : string) : result str :=
  if String.eqb key "dear" then Ok (dear row)
  else if String.eqb key "name" then Ok (name row)
  else if String.eqb key "greeting" then Ok (greeting row)
  else Raise KeyError.

Fixpoint format (fmt : list piece) (row : RowData) : result str :=
  match fmt with
  | [] => Ok []
  | Lit s :: rest => tl ← format rest row; mret (s ++ tl)
  | Field key :: rest => v ← field_value row key; tl ← format rest row; mret (v ++ tl)
  end.

(** [os.path.basename(p)]: what follows the last slash. *)
Definition basename (p : str) : str :=
  fold_left (fun acc ch => if (ch =? 0x2F)%N then [] else acc ++ [ch]) p [].

(** [s.rfind(c)] from position [i] on. *)
Fixpoint rfind_from (c : char) (i : nat) (s : str) : option nat :=
  match s with
  | [] => None
  | ch :: r =>
      match rfind_from c (S i) r with
      | Some k => Some k
      | None => if (ch =? c)%N then Some i else None
      end
  end.

(** [os.path.splitext(p)[0]] for a name without slash: the extension
    starts at the last dot, unless only dots precede it. *)
Definition splitext_root (p : str) : str :=
  match rfind_from 0x2E%N 0 p with
  | Some k => if forallb (N.eqb 0x2E) (take k p) then p else take k p
  | None => p
  end.

(** ** Configuration of [main.py] *)

Definition FONT_NAME : string := "Montserrat".
Definition FONT_SIZE : float := 10%Q.
Definition TEXT_COLOR_RGB : float * float * float := (220, 0, 0)%Q.

(** The position dictionaries, keys [x], [y], [rotate_deg], [align]. *)
Record position := {
  pos_x : float;
  pos_y : float;
  pos_rotate_deg : float;
  pos_align : string
}.

Definition SALUTATION_POS : position :=
  {| pos_x := 75.0%Q; pos_y := 480.0%Q; pos_rotate_deg := 90.0%Q;
     pos_align := "left" |}.

Definition GREETING_POS : position :=
  {| pos_x := 118.0%Q; pos_y := 500.0%Q; pos_rotate_deg := 90.0%Q;
     pos_align := "left" |}.

(** ["{dear} {name}!"] and ["{greeting}"] *)
Definition SALUTATION_FORMAT : list piece :=
  [Field "dear"; Lit (lit " "); Field "name"; Lit (lit "!")].
Definition GREETING_FORMAT : list piece := [Field "greeting"].

(** ** Output name *)

(** ["_Вкладыши.pdf"] *)
Definition SUFFIX : str :=
  lit "_" ++ [0x412; 0x43A; 0x43B; 0x430; 0x434; 0x44B; 0x448; 0x438]%N ++ lit ".pdf".

(** [def output_filename_from_docx(docx_path)]. The stem is computed as in
    the source and, as in the source, not used in the result. *)
Definition output_filename_from_docx (w : World) (docx_path : str) : M str :=
  tz ← lift (ZoneInfo w TZ_NAME);
  now ← datetime_now w tz;
  let stem := strip (splitext_root (basename docx_path)) in
  let allowed_extra := lit " _-" in
  let safe_stem_chars :=
    List.filter (fun ch => isalnum w ch || existsb (N.eqb ch) allowed_extra) stem in
  let safe_stem := strip (replace (lit "  ") (lit " ") safe_stem_chars) in
  let safe_stem := if is_empty safe_stem then lit "Word" else safe_stem in
  mret (format_d 4 (year now) ++ lit "_" ++ format_d 2 (month now) ++ lit "_"
        ++ format_d 2 (day now) ++ SUFFIX).

(** ** Overlay renderer *)

(** [def draw_text_block(c, text, x, y, rotate_deg, align)] *)
Definition draw_text_block (c : Canvas) (text : str) (x y rotate_deg : float)
    (align : string) : Canvas :=
  let c := saveState c in
  let c := translate x y c in
  let c := if negb (Qeq_bool rotate_deg 0%Q) then rotate rotate_deg c else c in
  let c := if String.eqb align "center"
           then drawCentredString 0.0%Q 0.0%Q text c
           else drawString 0.0%Q 0.0%Q text c in
  restoreState c.

(** [canvas.Canvas(buf, pagesize=pagesize)]: the document takes its time
    stamp from the clock. *)
Definition Canvas_open (w : World) (pagesize : float * float) : M Canvas :=
  now ← read_clock w;
  mret (Canvas_new now pagesize).

(** [def make_overlay_pdf(page_width, page_height, salutation_text,
    greeting_text)] *)
Definition make_overlay_pdf (w : World) (page_width page_height : float)
    (salutation_text greeting_text : str) : M PdfFile :=
  c ← Canvas_open w (page_width, page_height);
  let '(r, g, b) := TEXT_COLOR_RGB in
  let c := setFillColorRGB (r / 255.0)%Q (g / 255.0)%Q (b / 255.0)%Q c in
  let c := setFont FONT_NAME FONT_SIZE c in
  let c := draw_text_block c salutation_text
             (pos_x SALUTATION_POS) (pos_y SALUTATION_POS)
             (pos_rotate_deg SALUTATION_POS) (pos_align SALUTATION_POS) in
  let c := draw_text_block c greeting_text
             (pos_x GREETING_POS) (pos_y GREETING_POS)
             (pos_rotate_deg GREETING_POS) (pos_align GREETING_POS) in
  let c := showPage c in
  mret (save c).

(** ** Page compositor *)

(** The body of the loop of [generate_pdf] for one row. *)
Definition emit_row_page (w : World) (template_bytes : PdfFile)
    (page_width page_height : float) (writer : PdfWriter) (row : RowData)
  : M PdfWriter :=
  salutation_text ← lift (format SALUTATION_FORMAT row);
  greeting_text ← lift (format GREETING_FORMAT row);
  overlay_bytes ← make_overlay_pdf w page_width page_height
                    salutation_text greeting_text;
  overlay_reader ← PdfReader_open overlay_bytes;
  overlay_page ← lift (getitem (reader_pages overlay_reader) 0);
  fresh_reader ← PdfReader_open template_bytes;
  fresh_base_page ← lift (getitem (reader_pages fresh_reader) 1);
  '(writer, new_page) ← add_page writer fresh_base_page;
  _ ← merge_page new_page overlay_page;
  mret writer.

(** [for row in rows: ...] *)
Fixpoint for_rows (w : World) (template_bytes : PdfFile)
    (page_width page_height : float) (rows : list RowData) (writer : PdfWriter)
  : M PdfWriter :=
  match rows with
  | [] => mret writer
  | row :: rest =>
      writer ← emit_row_page w template_bytes page_width page_height writer row;
      for_rows w template_bytes page_width page_height rest writer
  end.

(** [open(TEMPLATE_PDF, "rb").read()] *)
Definition read_template (w : World) : result PdfFile :=
  match template_pdf w with
  | Some b => Ok b
  | None => Raise (FileNotFoundError NoTemplate)
  end.

(** The part of [generate_pdf] from reading the template to the cover
    page: the template bytes, the size of the reference page, and the
    writer holding page 0 of the template. *)
Definition start_writer (w : World) : M (PdfFile * (float * float) * PdfWriter) :=
  template_bytes ← lift (read_template w);
  reader0 ← PdfReader_open template_bytes;
  if length (reader_pages reader0) <? 2
  then raise (ValueError TemplateTooShort)
  else
    page1 ← lift (getitem (reader_pages reader0) 0);
    base0 ← lift (getitem (reader_pages reader0) 1);
    base0_obj ← deref base0;
    let page_width := width (mediabox base0_obj) in
    let page_height := height (mediabox base0_obj) in
    let writer := PdfWriter_new in
    '(writer, _) ← add_page writer page1;
    mret (template_bytes, (page_width, page_height), writer).

(** [pdfmetrics.registerFont(TTFont(FONT_NAME, FONT_TTF))]: loading the
    font file fails when it is no usable font. The registry the font goes
    to is not modelled: [generate_pdf] registers the font before any
    overlay is rendered. *)
Definition registerFont (w : World) : result unit :=
  if font_loads w then Ok tt else Raise TTFError.

(** [def generate_pdf(docx_path)]: the returned path and the file written
    there. *)
Definition generate_pdf (w : World) (docx_path : str) : M (str * PdfFile) :=
  if negb (bool_decide (is_Some (template_pdf w)))
  then raise (FileNotFoundError NoTemplate)
  else if negb (font_ttf w)
  then raise (FileNotFoundError NoFont)
  else
    rows ← lift (read_rows_from_docx w docx_path);
    _ ← lift (registerFont w);
    '(template_bytes, (page_width, page_height), writer) ← start_writer w;
    writer ← for_rows w template_bytes page_width page_height rows writer;
    out_path ← output_filename_from_docx w docx_path;
    written ← PdfWriter_write writer;
    mret (out_path, written).

(** *** Vocabulary for statements about pages *)

(** The operators of one label: the origin moved to the anchor, the axes
    turned when the angle is not zero, the text drawn at the origin, and
    the coordinate system restored. *)
Definition label_ops (pos : position) (text : str) : list op :=
  [SaveState; Translate (pos_x pos) (pos_y pos)]
  ++ (if Qeq_bool (pos_rotate_deg pos) 0%Q then [] else [Rotate (pos_rotate_deg pos)])
  ++ [if String.eqb (pos_align pos) "center"
      then DrawCentredString 0.0%Q 0.0%Q text
      else DrawString 0.0%Q 0.0%Q text;
      RestoreState].

(** The one page of an overlay of the given size and texts, as the overlay
    file holds it. *)
Definition overlay_page (page_width page_height : float)
    (salutation_text greeting_text : str) : PageObject :=
  {| mediabox := {| width := fp_str page_width; height := fp_str page_height |};
     contents :=
       [[SetFillColorRGB (220 / 255.0)%Q (0 / 255.0)%Q (0 / 255.0)%Q;
         SetFont FONT_NAME FONT_SIZE]
        ++ label_ops SALUTATION_POS salutation_text
        ++ label_ops GREETING_POS greeting_text] |}.

(** The two texts of a record under the default formats. *)
Definition salutation_of (row : RowData) : str :=
  dear row ++ lit " " ++ name row ++ lit "!".
Definition greeting_of (row : RowData) : str := greeting row.

(** The page generated for a record from the reference page [base]. *)
Definition page_for (base : PageObject) (row : RowData) : PageObject :=
  merged base
    (overlay_page (width (mediabox base)) (height (mediabox base))
       (salutation_of row) (greeting_of row)).

(** The compositor after the cover page and the given records. *)
Definition composed (w : World) (rows : list RowData)
  : M (PdfFile * (float * float) * PdfWriter) :=
  '(template_bytes, (page_width, page_height), writer) ← start_writer w;
  writer ← for_rows w template_bytes page_width page_height rows writer;
  mret (template_bytes, (page_width, page_height), writer).

(** The calendar date of a wall-clock reading. *)
Definition date_of (dt : datetime) : Z * Z * Z := (year dt, month dt, day dt).

(** The writer refers to page objects of the store only. *)
Definition writer_ok (writer : PdfWriter) (st : store) : Prop :=
  (forall src c, In (src, c) (cloned writer) -> src < length (heap st)) /\
  Forall (fun a => a < length (heap st)) (writer_pages writer).

(** The page objects behind a list of references. *)
Definition pages_at (l : list addr) (st : store) : list (option PageObject) :=
  map (fun a => heap st !! a) l.

(** The output name for a wall-clock reading. *)
Definition date_name (now : datetime) : str :=
  format_d 4 (year now) ++ lit "_" ++ format_d 2 (month now) ++ lit "_"
  ++ format_d 2 (day now) ++ SUFFIX.

(** *** Sample documents *)

Definition row_of (cells : list str) : xml := w_tr (map text_cell cells).

Definition header_row : xml :=
  row_of [lit "Name"; lit "Greeting"; lit "Dear"].

Definition doc_of (trs : list xml) : Document :=
  {| tables := [ {| rows := trs |} ] |}.

(** The two data rows of the end-to-end example. *)
Definition ivanov_petrova_doc : Document :=
  doc_of [header_row;
          row_of [lit "Ivanov I.I."; lit "Birthday"; lit "Dear"];
          row_of [lit "Petrova A.B."; lit "Anniversary"; lit "Dear"]].

(** Two data rows with two cells each. *)
Definition two_short_rows_doc : Document :=
  doc_of [header_row;
          row_of [lit "Ivanov I.I."; lit "Birthday"];
          row_of [lit "Petrova A.B."; lit "Anniversary"]].

(** A complete row followed by a row with two cells. *)
Definition short_second_row_doc : Document :=
  doc_of [header_row;
          row_of [lit "Ivanov I.I."; lit "Birthday"; lit "Dear"];
          row_of [lit "Petrova A.B."; lit "Anniversary"]].

(** A row without name and greeting, then a row without greeting only. *)
Definition missing_fields_doc : Document :=
  doc_of [header_row;
          row_of [[]; []; lit "Dear"];
          row_of [lit "Petrova A.B."; []; lit "Dear"]].

(** A complete row, a blank row, and a row without greeting. *)
Definition blank_then_partial_doc : Document :=
  doc_of [header_row;
          row_of [lit "Ivanov I.I."; lit "Birthday"; lit "Dear"];
          row_of [lit "  "; []; [NBSP]];
          row_of [lit "Petrova A.B."; []; lit "Dear"]].

(** *** A sample world *)

Definition a_page (wd ht : float) (code : str) : PageObject :=
  {| mediabox := {| width := wd; height := ht |}; contents := [[Other code]] |}.

(** A template of two pages, the reference page being 200 by 400 units. *)
Definition sample_template : PdfFile :=
  {| creation_date := None;
     file_pages := [a_page 210%Q 297%Q (lit "cover"); a_page 200%Q 400%Q (lit "insert")] |}.


(** ASCII letters and digits and the Cyrillic block. *)
Definition sample_isalnum (c : char) : bool :=
  ((0x30 <=? c) && (c <=? 0x39) || (0x41 <=? c) && (c <=? 0x5A)
   || (0x61 <=? c) && (c <=? 0x7A) || (0x400 <=? c) && (c <=? 0x4FF))%N.

(** A machine set to UTC whose zone database knows Europe/Minsk, three
    hours ahead of UTC; the clock reads [t0] first and advances by one
    second per reading; the template and a usable font file are there. *)
Definition sample_world (t0 : Z) (doc : Document) : World :=
  {| time := fun k => (t0 + Z.of_nat k)%Z;
     zoneinfo := fun key =>
       if String.eqb key "Europe/Minsk" then Some (fun _ => 10800%Z) else None;
     local_utcoffset := fun _ => 0%Z;
     isalnum := sample_isalnum;
     docx := fun _ => Some doc;
     template_pdf := Some sample_template;
     font_ttf := true;
     font_loads := true |}.


Definition empty_store : store := {| heap := []; ticks := 0 |}.

(** 2024-01-01 20:00:00 UTC and 2024-01-01 22:00:00 UTC *)
Definition evening : Z := 1704139200.
Definition late_evening : Z := 1704146400.

Definition ivanov : RowData :=
  {| name := lit "Ivanov I.I."; greeting := lit "Birthday"; dear := lit "Dear" |}.
Definition petrova : RowData :=
  {| name := lit "Petrova A.B."; greeting := lit "Anniversary"; dear := lit "Dear" |}.

(** ** Vocabulary for further statements *)

(** A record as the extractor promises it: no field is empty and every
    field is in normalized form. *)
Definition well_formed_record (r : RowData) : Prop :=
  name r <> [] /\ greeting r <> [] /\ dear r <> [] /\
  _norm (name r) = name r /\ _norm (greeting r) = greeting r /\
  _norm (dear r) = dear r.

(** A world like [sample_world] at [evening] in which the template, the
    font file, the document and the zone may be missing; [font] tells
    whether the font file exists and, when it does, whether it loads. *)
Definition world_with (tpl : option PdfFile) (font : option bool)
    (doc : option Document) (zone : bool) : World :=
  {| time := fun k => (evening + Z.of_nat k)%Z;
     zoneinfo := fun key =>
       if zone && String.eqb key "Europe/Minsk" then Some (fun _ => 10800%Z) else None;
     local_utcoffset := fun _ => 0%Z;
     isalnum := sample_isalnum;
     docx := fun _ => doc;
     template_pdf := tpl;
     font_ttf := bool_decide (is_Some font);
     font_loads := bool_decide (font = Some true) |}.

(** A template of one page. *)
Definition short_template : PdfFile :=
  {| creation_date := None; file_pages := [a_page 210%Q 297%Q (lit "cover")] |}.

(** *** Drawing a content stream

    What the operators of a canvas do to the graphics state of a page: the
    transformations applied to the coordinate system, the fill colour and
    the font; [SaveState] and [RestoreState] push and pop it. Each text is
    recorded with the state it is drawn in. [Other] operators are not
    interpreted. A stream that restores more than it saved is invalid. *)
Record gstate := {
  transform : list op;
  fill : option (float * float * float);
  font : option (string * float)
}.

Record machine := {
  current : gstate;
  stack : list gstate;
  drawn : list (gstate * op)
}.

Definition step (o : op) (m : machine) : option machine :=
  let g := current m in
  match o with
  | SaveState =>
      Some {| current := g; stack := g :: stack m; drawn := drawn m |}
  | RestoreState =>
      match stack m with
      | [] => None
      | g' :: rest => Some {| current := g'; stack := rest; drawn := drawn m |}
      end
  | Translate _ _ | Rotate _ =>
      Some {| current := {| transform := transform g ++ [o]; fill := fill g; font := font g |};
              stack := stack m; drawn := drawn m |}
  | SetFillColorRGB r gr b =>
      Some {| current := {| transform := transform g; fill := Some (r, gr, b); font := font g |};
              stack := stack m; drawn := drawn m |}
  | SetFont psfontname size =>
      Some {| current := {| transform := transform g; fill := fill g;
                            font := Some (psfontname, size) |};
              stack := stack m; drawn := drawn m |}
  | DrawString _ _ _ | DrawCentredString _ _ _ =>
      Some {| current := g; stack := stack m; drawn := drawn m ++ [(g, o)] |}
  | Other _ => Some m
  end.

Fixpoint draw (code : list op) (m : machine) : option machine :=
  match code with
  | [] => Some m
  | o :: rest =>
      match step o m with
      | Some m' => draw rest m'
      | None => None
      end
  end.

(** The state in which a label is drawn from state [g]: the origin moved
    to the anchor, then the axes turned about it. *)
Definition label_state (g : gstate) (x y rotate_deg : float) : gstate :=
  {| transform := transform g ++ [Translate x y]
                  ++ (if Qeq_bool rotate_deg 0%Q then [] else [Rotate rotate_deg]);
     fill := fill g; font := font g |}.

(** *** Reading an output name *)

(** The number written by decimal digits. *)
Definition int_of_digits (s : str) : Z :=
  fold_left (fun acc c => (acc * 10 + (Z.of_N c - 48))%Z) s 0%Z.

(** Year, month and day as they stand in a name [YYYY_MM_DD...]. *)
Definition date_of_name (name : str) : Z * Z * Z :=
  (int_of_digits (take 4 name),
   int_of_digits (take 2 (drop 5 name)),
   int_of_digits (take 2 (drop 8 name))).

(** [f] holds of the [n] integers from [z] on. *)
Fixpoint all_from (f : Z -> bool) (z : Z) (n : nat) : bool :=
  match n with
  | O => true
  | S k => f z && all_from f (z + 1) k
  end.

(** ** The command line ([find_single_docx_in_cwd_strict], [main]) *)

From Stdlib Require Import Sorted Permutation.

(** What the two functions read besides the world of [generate_pdf]. *)
Record Shell := {
  (** [sys.argv] *)
  argv : list str;
  (** [os.listdir(".")] *)
  listdir : list str;
  (** [os.path.isfile] *)
  isfile : str -> bool;
  (** [os.path.exists] *)
  path_exists : str -> bool;
  (** [str.lower], from the Unicode database *)
  lower : str -> str
}.

(** The failures of the two functions: their own three diagnostics, and
    whatever [generate_pdf] raises. *)
Inductive failure :=
| NoDocxHere                          (* FileNotFoundError "no .docx in the project root" *)
| SeveralDocxHere (names : list str)  (* ValueError listing the sorted names *)
| DocxNotFound (docx_path : str)      (* FileNotFoundError "Word file not found: PATH" *)
| Raised (e : exn).

(** [s.endswith(suffix)] *)
Definition endswith (suffix s : str) : bool := startswith (rev suffix) (rev s).

(** [a <= b] on strings, code point by code point. *)
Fixpoint str_leb (a b : str) : bool :=
  match a, b with
  | [], _ => true
  | _ :: _, [] => false
  | x :: a', y :: b' =>
      if (x <? y)%N then true
      else if (x =? y)%N then str_leb a' b'
      else false
  end.

(** [sorted(names)] *)
Fixpoint insert_sorted (s : str) (l : list str) : list str :=
  match l with
  | [] => [s]
  | t :: r => if str_leb s t then s :: l else t :: insert_sorted s r
  end.

Definition sorted (l : list str) : list str := fold_right insert_sorted [] l.

(** [f.lower().endswith(".docx") and os.path.isfile(f)] *)
Definition is_docx_file (sh : Shell) (f : str) : bool :=
  endswith (lit ".docx") (lower sh f) && isfile sh f.

(** [def find_single_docx_in_cwd_strict()] *)
Definition find_single_docx_in_cwd_strict (sh : Shell) : failure + str :=
  let docx_files := List.filter (is_docx_file sh) (listdir sh) in
  if length docx_files =? 1 then
    match docx_files !! 0 with
    | Some f => inr f
    | None => inl (Raised IndexError)
    end
  else if length docx_files =? 0 then inl NoDocxHere
  else inl (SeveralDocxHere (sorted docx_files)).

(** ["Готово: "] *)
Definition DONE : str := [0x413; 0x43E; 0x442; 0x43E; 0x432; 0x43E]%N ++ lit ": ".

(** [def main()]: the line printed, the file written and the store at the
    end, or the failure. *)
Definition main (sh : Shell) (w : World) (st : store)
  : failure + (str * PdfFile * store) :=
  let chosen :=
    if 2 <=? length (argv sh) then
      match argv sh !! 1 with
      | Some docx_path =>
          if negb (path_exists sh docx_path) then inl (DocxNotFound docx_path)
          else inr docx_path
      | None => inl (Raised IndexError)
      end
    else find_single_docx_in_cwd_strict sh in
  match chosen with
  | inl e => inl e
  | inr docx_path =>
      match generate_pdf w docx_path st with
      | Ok ((out, written), st') => inr (DONE ++ out, written, st')
      | Raise e => inl (Raised e)
      end
  end.

(** A shell in a directory of three entries, with ASCII lowering. *)
Definition ascii_lower (s : str) : str :=
  map (fun c => if ((0x41 <=? c) && (c <=? 0x5A))%N then (c + 32)%N else c) s.

Definition sample_shell (args : list str) (entries : list str) : Shell :=
  {| argv := lit "main.py" :: args;
     listdir := entries;
     isfile := fun f => negb (bool_decide (f = lit "old.docx"));
     path_exists := fun p => existsb (fun e => bool_decide (e = p)) entries;
     lower := ascii_lower |}.

(* ================================================================== *)
(** * Part II: properties *)
(* ================================================================== *)

(** ** Normalization *)

Lemma replace_single_char (a b : char) (s : str) :
  replace [a] [b] s = map (fun c => if (c =? a)%N then b else c) s.
Proof.
  unfold replace. induction s as [|c r IH]; [reflexivity|].
  cbn [replace_from startswith map length Nat.pred].
  rewrite N.eqb_sym, andb_true_r.
  destruct (c =? a)%N; cbn; now rewrite IH.
Qed.

Lemma or_empty_id (s : str) : or_empty s = s.
Proof. now destruct s. Qed.

Lemma isspace_SPACE : isspace SPACE = true.
Proof. reflexivity. Qed.

Lemma rstrip_cons (c : char) (r : str) :
  rstrip (c :: r) =
  match rstrip r with
  | [] => if isspace c then [] else [c]
  | _ :: _ => c :: rstrip r
  end.
Proof. cbn [rstrip]. now destruct (rstrip r). Qed.

Lemma rstrip_cons_nonspace (c : char) (r : str) :
  isspace c = false -> rstrip (c :: r) = c :: rstrip r.
Proof. intros E. rewrite rstrip_cons, E. now destruct (rstrip r). Qed.

Lemma split_lstrip (t : str) : split (lstrip t) = split t.
Proof.
  induction t as [|c r IH]; [reflexivity|].
  cbn [lstrip]. destruct (isspace c) eqn:E; [|reflexivity].
  rewrite IH. cbn [split]. now rewrite E.
Qed.

Lemma split_cons_space (c : char) (r : str) :
  isspace c = true -> split (c :: r) = split r.
Proof. intros E. cbn [split]. now rewrite E. Qed.

Lemma rstrip_head (d : char) (r : str) :
  rstrip (d :: r) = [] \/ exists r', rstrip (d :: r) = d :: r'.
Proof.
  rewrite rstrip_cons. destruct (rstrip r); [|eauto].
  destruct (isspace d); eauto.
Qed.

Lemma split_rstrip (t : str) : split (rstrip t) = split t.
Proof.
  induction t as [|c r IH]; [reflexivity|].
  rewrite rstrip_cons.
  destruct (isspace c) eqn:E.
  - rewrite (split_cons_space c r E), <- IH.
    destruct (rstrip r) as [|d r'] eqn:R; [reflexivity|].
    now rewrite split_cons_space.
  - destruct r as [|d r0]; [cbn; now rewrite E|].
    destruct (rstrip_head d r0) as [R | [r' R]]; rewrite R in IH |- *.
    + (* only whitespace follows *)
      cbn [split] in IH |- *. rewrite E.
      destruct (isspace d) eqn:D; [now rewrite <- IH|].
      now destruct r0 as [|e r1]; [|destruct (isspace e); [|destruct (split (e :: r1))]].
    + transitivity (if isspace d then [c] :: split (d :: r')
                    else match split (d :: r') with
                         | w :: ws => (c :: w) :: ws
                         | [] => [[c]]
                         end).
      { cbn [split]. now rewrite E. }
      rewrite IH. cbn [split]. now rewrite E.
Qed.

Lemma split_strip (t : str) : split (strip t) = split t.
Proof. unfold strip. now rewrite split_rstrip, split_lstrip. Qed.

(** The words of [split] are never empty. *)
Lemma split_words_nonempty (t : str) : Forall (fun w => w <> []) (split t).
Proof.
  induction t as [|c r IH]; [constructor|].
  cbn [split]. destruct (isspace c); [exact IH|].
  destruct r as [|d r0]; [repeat constructor; discriminate|].
  destruct (isspace d).
  - constructor; [discriminate | exact IH].
  - destruct (split (d :: r0)) as [|w ws].
    + repeat constructor; discriminate.
    + inversion IH; subst. constructor; [discriminate | assumption].
Qed.

Lemma split_cons_nonspace_nonempty (d : char) (r : str) :
  isspace d = false -> split (d :: r) <> [].
Proof.
  intros D. cbn [split]. rewrite D.
  destruct r as [|e r0]; [discriminate|].
  destruct (isspace e); [discriminate|].
  now destruct (split (e :: r0)).
Qed.

Lemma join_nil_inv (sep : str) (l : list str) :
  Forall (fun w => w <> []) l -> join sep l = [] -> l = [].
Proof.
  intros H E. destruct l as [|w ws]; [reflexivity|].
  inversion H as [|? ? Hw _]; subst.
  cbn [join] in E. destruct ws; [contradiction|].
  destruct w; [contradiction | discriminate].
Qed.

Lemma join_cons_cons (sep : str) (c : char) (w : str) (ws : list str) :
  join sep ((c :: w) :: ws) = c :: join sep (w :: ws).
Proof. cbn [join]. now destruct ws. Qed.

(** Trailing-trimmed collapsing against [split]/[join], for both values of
    the run flag. *)
Lemma rstrip_collapse_runs (r : str) :
  rstrip (collapse_runs true r) = join [SPACE] (split r) /\
  rstrip (collapse_runs false r) =
    match r with
    | [] => []
    | d :: _ =>
        if isspace d
        then match join [SPACE] (split r) with
             | [] => []
             | j => SPACE :: j
             end
        else join [SPACE] (split r)
    end.
Proof.
  induction r as [|c r IH]; [split; reflexivity|].
  destruct IH as [IHt IHf].
  assert (Hns : isspace c = false ->
                forall b, rstrip (collapse_runs b (c :: r)) = join [SPACE] (split (c :: r))).
  { intros E b. cbn [collapse_runs]. rewrite E.
    rewrite rstrip_cons_nonspace by exact E. rewrite IHf.
    cbn [split]. rewrite E.
    destruct r as [|d r0]; [reflexivity|].
    destruct (isspace d) eqn:D.
    - destruct (join [SPACE] (split (d :: r0))) as [|j js] eqn:J.
      + apply join_nil_inv in J; [|apply split_words_nonempty].
        now rewrite J.
      + cbn [join]. destruct (split (d :: r0)); [discriminate J|].
        now rewrite J.
    - destruct (split (d :: r0)) as [|w ws] eqn:S.
      + now apply split_cons_nonspace_nonempty in S.
      + now rewrite join_cons_cons. }
  destruct (isspace c) eqn:E.
  - split.
    + cbn [collapse_runs]. rewrite E, IHt. now rewrite split_cons_space.
    + cbn [collapse_runs]. rewrite E, rstrip_cons, IHt, isspace_SPACE.
      rewrite split_cons_space by exact E.
      now destruct (join [SPACE] (split r)).
  - split; [apply Hns | rewrite Hns]; auto.
Qed.

Lemma trim_collapse_runs (t : str) (b : bool) :
  trim (collapse_runs b t) = join [SPACE] (split t).
Proof.
  unfold trim. revert b. induction t as [|c r IH]; intros b; [reflexivity|].
  destruct (isspace c) eqn:E.
  - rewrite split_cons_space by exact E. cbn [collapse_runs]. rewrite E.
    destruct b; [apply IH|].
    cbn [lstrip]. rewrite isspace_SPACE. apply IH.
  - pose proof (proj2 (rstrip_collapse_runs (c :: r))) as H.
    cbn match in H. rewrite E in H.
    destruct b.
    + cbn [collapse_runs] in H |- *. rewrite E in H |- *.
      cbn [lstrip]. now rewrite E.
    + cbn [collapse_runs] in H |- *. rewrite E in H |- *.
      cbn [lstrip]. now rewrite E.
Qed.

(** C3. [_norm] is exactly the three-pass normalization: non-breaking
    spaces are replaced by ordinary spaces, every run of whitespace is
    collapsed to one ASCII space, and leading and trailing whitespace is
    trimmed; and two spaces, [A], two non-breaking spaces, [B], two spaces
    normalize to [A B]. *)
Theorem norm_collapses_and_trims :
  (forall s : str, _norm s = norm_spec s) /\
  _norm ([SPACE; SPACE] ++ lit "A" ++ [NBSP; NBSP] ++ lit "B" ++ [SPACE; SPACE])
  = lit "A B".
Proof.
  split; [|reflexivity].
  intros s. unfold _norm, norm_spec.
  rewrite or_empty_id, split_strip, trim_collapse_runs.
  change (lit " ") with [SPACE].
  now rewrite replace_single_char.
Qed.

(** ** Unwrapping the cells of a row *)

Lemma flat_map_filter {A B} (p : A -> bool) (f : A -> list B) (l : list A) :
  flat_map f (List.filter p l) = flat_map (fun x => if p x then f x else []) l.
Proof.
  induction l as [|x l IH]; [reflexivity|].
  cbn [List.filter flat_map]. destruct (p x); cbn [flat_map]; now rewrite IH.
Qed.

(** The step of the loop adds exactly the contribution of the child. *)
Lemma tcs_step_contribution (out : list xml) (child : xml) :
  (if has_tag (w_tag "tc") child then out ++ [child]
   else if has_tag (w_tag "sdt") child then
     out ++ xpath_child (w_tag "tc") (xpath_child (w_tag "sdtContent") [child])
   else out)
  = out ++ cell_contribution child.
Proof.
  destruct child as [t kids | s |]; cbn [has_tag cell_contribution];
    [|now rewrite app_nil_r..].
  destruct (String.eqb t (w_tag "tc")); [reflexivity|].
  destruct (String.eqb t (w_tag "sdt")); [|now rewrite app_nil_r].
  f_equal. unfold xpath_child. cbn [flat_map children].
  rewrite app_nil_r. apply flat_map_filter.
Qed.

Lemma tcs_loop_flat_map (kids out : list xml) :
  fold_left
    (fun out child =>
       if has_tag (w_tag "tc") child then out ++ [child]
       else if has_tag (w_tag "sdt") child then
         let tcs := xpath_child (w_tag "tc") (xpath_child (w_tag "sdtContent") [child]) in
         out ++ tcs
       else out)
    kids out
  = out ++ flat_map cell_contribution kids.
Proof.
  revert out. induction kids as [|child kids IH]; intros out.
  - cbn. now rewrite app_nil_r.
  - cbn [fold_left flat_map]. cbv zeta. rewrite tcs_step_contribution, IH.
    now rewrite <- app_assoc.
Qed.

Lemma tcs_from_row_flat_map (tr : xml) :
  _tcs_from_row_xml tr = flat_map cell_contribution (children tr).
Proof. unfold _tcs_from_row_xml. now rewrite tcs_loop_flat_map. Qed.

Lemma has_tag_false_neq (t tag : string) (kids : list xml) :
  t <> tag -> has_tag tag (Elem t kids) = false.
Proof. intros H. cbn. now apply String.eqb_neq. Qed.

Lemma contribution_sdt (kids : list xml) :
  cell_contribution (w_sdt kids)
  = flat_map (fun body =>
                if has_tag (w_tag "sdtContent") body
                then List.filter (has_tag (w_tag "tc")) (children body)
                else []) kids.
Proof. reflexivity. Qed.

(** C10. The unwrapped cell list is the concatenation, in document order,
    of what each row-level child contributes: a table cell contributes
    itself, a content control contributes the table cells directly inside
    its content bodies, and every other node contributes nothing; a content
    control nested in a content body, or any cell below a non-cell child of
    a content body, is ignored. *)
Theorem tcs_from_row_exact :
  (forall tr : xml, _tcs_from_row_xml tr = unwrapped_cells_spec tr) /\
  (forall child : xml,
      has_tag (w_tag "tc") child = false ->
      has_tag (w_tag "sdt") child = false ->
      cell_contribution child = []) /\
  (forall (t : string) (deeper before after : list xml),
      t <> w_tag "tc" ->
      _tcs_from_row_xml (w_tr (before ++ [w_sdt [w_sdtContent [Elem t deeper]]] ++ after))
      = _tcs_from_row_xml (w_tr (before ++ after))) /\
  (forall inner before after : list xml,
      _tcs_from_row_xml (w_tr (before ++ [w_sdt [w_sdtContent [w_sdt inner]]] ++ after))
      = _tcs_from_row_xml (w_tr (before ++ after))).
Proof.
  assert (Hdeep : forall (t : string) (deeper before after : list xml),
      t <> w_tag "tc" ->
      _tcs_from_row_xml (w_tr (before ++ [w_sdt [w_sdtContent [Elem t deeper]]] ++ after))
      = _tcs_from_row_xml (w_tr (before ++ after))).
  { intros t deeper before after Ht.
    rewrite !tcs_from_row_flat_map. cbn [children w_tr].
    rewrite !flat_map_app. cbn [flat_map].
    replace (cell_contribution (w_sdt [w_sdtContent [Elem t deeper]])) with (@nil xml);
      [reflexivity|].
    rewrite contribution_sdt. cbn [flat_map].
    change (has_tag (w_tag "sdtContent") (w_sdtContent [Elem t deeper])) with true.
    cbn [w_sdtContent children List.filter].
    now rewrite (has_tag_false_neq t (w_tag "tc") deeper Ht). }
  repeat split.
  - apply tcs_from_row_flat_map.
  - intros [t kids | s |] Htc Hsdt; cbn in *; [|reflexivity..].
    now rewrite Htc, Hsdt.
  - exact Hdeep.
  - intros inner before after. apply Hdeep. discriminate.
Qed.

Lemma tcs_from_row_exact_witness :
  cell_contribution (Elem (w_tag "tcPr") [w_tc []]) = [] /\
  _tcs_from_row_xml
    (w_tr ([text_cell (lit "a")]
           ++ [w_sdt [w_sdtContent [Elem (w_tag "tbl") [w_tc []]]]]
           ++ [text_cell (lit "b")]))
  = _tcs_from_row_xml (w_tr ([text_cell (lit "a")] ++ [text_cell (lit "b")])).
Proof.
  split.
  - apply (proj1 (proj2 tcs_from_row_exact)); reflexivity.
  - apply (proj1 (proj2 (proj2 tcs_from_row_exact))). discriminate.
Defined.

Lemma filter_all {A} (p : A -> bool) (l : list A) :
  forallb p l = true -> List.filter p l = l.
Proof.
  induction l as [|x l IH]; [reflexivity|].
  cbn. intros [Hx Hl]%andb_prop. rewrite Hx. now rewrite IH.
Qed.

Lemma flat_map_contribution_cells (cells : list xml) :
  forallb (has_tag (w_tag "tc")) cells = true ->
  flat_map cell_contribution cells = cells.
Proof.
  induction cells as [|c cells IH]; [reflexivity|].
  cbn [forallb flat_map]. intros [Hc Hl]%andb_prop. rewrite (IH Hl).
  destruct c as [t kids | s |]; cbn in Hc; try discriminate.
  cbn. now rewrite Hc.
Qed.

Lemma flat_map_no_body (cells : list xml) (props : list xml) :
  forallb (fun n => negb (has_tag (w_tag "sdtContent") n)) props = true ->
  flat_map (fun body =>
              if has_tag (w_tag "sdtContent") body
              then List.filter (has_tag (w_tag "tc")) (children body)
              else []) props = [].
Proof.
  induction props as [|p props IH]; [reflexivity|].
  cbn [forallb flat_map]. intros [Hp Hl]%andb_prop.
  apply negb_true_iff in Hp. now rewrite Hp, IH.
Qed.

Lemma group_contribution (g : cell_group) :
  group_ok g = true ->
  flat_map cell_contribution (group_nodes g) = group_cells g.
Proof.
  destruct g as [cells | before after cells]; cbn [group_ok group_nodes group_cells].
  - apply flat_map_contribution_cells.
  - intros [Hc Hp]%andb_prop. rewrite forallb_app in Hp.
    apply andb_prop in Hp as [Hb Ha].
    cbn [flat_map]. rewrite app_nil_r.
    rewrite contribution_sdt.
    rewrite !flat_map_app, (flat_map_no_body cells before Hb),
      (flat_map_no_body cells after Ha).
    cbn [flat_map app].
    change (has_tag (w_tag "sdtContent") (w_sdtContent cells)) with true.
    cbn [w_sdtContent children]. rewrite !app_nil_r. now apply filter_all.
Qed.

Lemma authored_row_cells (gs : list cell_group) :
  forallb group_ok gs = true ->
  _tcs_from_row_xml (authored_row gs) = flat_map group_cells gs.
Proof.
  intros H. rewrite tcs_from_row_flat_map. cbn [authored_row w_tr children].
  induction gs as [|g gs IH]; [reflexivity|].
  cbn [forallb] in H. apply andb_prop in H as [Hg Hgs].
  cbn [flat_map]. rewrite flat_map_app, (group_contribution g Hg), (IH Hgs).
  reflexivity.
Qed.

(** C4. However the runs of cells of a row are authored, directly in the
    row or inside content controls, unwrapping yields the same ordered list
    of cell nodes as for the row authored with all its cells as direct
    children, namely the cells themselves; hence the extracted cell texts
    are identical too. *)
Theorem wrapped_row_same_cells (gs : list cell_group) :
  forallb group_ok gs = true ->
  let plain := authored_row [Direct (flat_map group_cells gs)] in
  _tcs_from_row_xml (authored_row gs) = _tcs_from_row_xml plain /\
  _tcs_from_row_xml (authored_row gs) = flat_map group_cells gs /\
  map (fun tc => _norm (_text_from_tc tc)) (_tcs_from_row_xml (authored_row gs))
  = map (fun tc => _norm (_text_from_tc tc)) (_tcs_from_row_xml plain).
Proof.
  intros H plain.
  assert (Hplain : _tcs_from_row_xml plain = flat_map group_cells gs).
  { unfold plain. rewrite authored_row_cells.
    - cbn. now rewrite app_nil_r.
    - cbn [forallb group_ok]. rewrite andb_true_r.
      clear plain. induction gs as [|g gs IH]; [reflexivity|].
      cbn [forallb] in H. apply andb_prop in H as [Hg Hgs].
      cbn [flat_map]. rewrite forallb_app, (IH Hgs), andb_true_r.
      destruct g; cbn in Hg |- *; [assumption|].
      now apply andb_prop in Hg as [Hc _]. }
  rewrite Hplain, (authored_row_cells gs H). auto.
Qed.

Lemma wrapped_row_same_cells_witness :
  let gs := [Wrapped [Elem (w_tag "sdtPr") []] []
               [text_cell (lit "Ivanov I.I."); text_cell (lit "Birthday")];
             Direct [text_cell (lit "Dear")]] in
  let plain := authored_row [Direct (flat_map group_cells gs)] in
  forallb group_ok gs = true /\
  _tcs_from_row_xml (authored_row gs) = _tcs_from_row_xml plain /\
  _tcs_from_row_xml (authored_row gs) = flat_map group_cells gs /\
  map (fun tc => _norm (_text_from_tc tc)) (_tcs_from_row_xml (authored_row gs))
  = map (fun tc => _norm (_text_from_tc tc)) (_tcs_from_row_xml plain).
Proof.
  intros gs plain. split; [reflexivity|].
  apply (wrapped_row_same_cells gs). reflexivity.
Defined.

(** ** Reading the rows *)

Lemma read_row_fields (i : nat) (tr : xml) :
  read_row i tr =
  match row_fields tr with
  | None => Raise (ValueError (TooFewCells (i + 1)))
  | Some (n, g, d) =>
      if is_empty n && is_empty g && is_empty d then Ok None
      else if is_empty n then Raise (ValueError (EmptyName (i + 1)))
      else if is_empty g then Raise (ValueError (EmptyGreeting (i + 1)))
      else if is_empty d then Raise (ValueError (EmptyDear (i + 1)))
      else Ok (Some {| name := n; greeting := g; dear := d |})
  end.
Proof.
  unfold read_row, row_fields.
  destruct (_tcs_from_row_xml tr) as [|c0 [|c1 [|c2 rest]]]; reflexivity.
Qed.

Lemma row_fields_short (tr : xml) :
  length (_tcs_from_row_xml tr) < 3 <-> row_fields tr = None.
Proof.
  unfold row_fields.
  destruct (_tcs_from_row_xml tr) as [|c0 [|c1 [|c2 rest]]]; cbn;
    split; intros H; try reflexivity; try lia; discriminate.
Qed.

Lemma read_row_passes (i : nat) (tr : xml) :
  row_passes tr = true -> read_row i tr = Ok (row_record tr).
Proof.
  rewrite read_row_fields. unfold row_passes, row_record, blank_row, fully_populated.
  destruct (row_fields tr) as [[[n g] d]|]; [|discriminate].
  destruct (is_empty n), (is_empty g), (is_empty d); cbn; intros H;
    try discriminate; reflexivity.
Qed.

Lemma read_row_ok_inv (i : nat) (tr : xml) (o : option RowData) :
  read_row i tr = Ok o -> row_passes tr = true /\ o = row_record tr.
Proof.
  rewrite read_row_fields. unfold row_passes, row_record, blank_row, fully_populated.
  destruct (row_fields tr) as [[[n g] d]|]; [|discriminate].
  destruct (is_empty n), (is_empty g), (is_empty d); cbn; intros H;
    try discriminate; inversion H; auto.
Qed.

(** The loop runs through rows that are blank or fully populated and
    collects the records of the latter. *)
Lemma rows_loop_passes (pre rest : list xml) (i : nat) (out : list RowData) :
  forallb row_passes pre = true ->
  rows_loop i (pre ++ rest) out
  = rows_loop (i + length pre) rest (out ++ omap row_record pre).
Proof.
  revert i out. induction pre as [|tr pre IH]; intros i out H.
  - cbn. now rewrite Nat.add_0_r, app_nil_r.
  - cbn [forallb] in H. apply andb_prop in H as [Htr Hpre].
    cbn [app rows_loop]. rewrite (read_row_passes i tr Htr). cbn [mbind result_bind].
    cbn [omap list_omap length]. replace (i + S (length pre)) with (S i + length pre) by lia.
    destruct (row_record tr) as [row|]; rewrite (IH _ _ Hpre).
    + now rewrite <- app_assoc.
    + reflexivity.
Qed.

(** Once a row raises, the loop raises, whatever precedes the row. *)
Lemma rows_loop_raises (pre post : list xml) (tr : xml) :
  (forall i, exists e, read_row i tr = Raise e) ->
  forall i out, exists e, rows_loop i (pre ++ tr :: post) out = Raise e.
Proof.
  intros Htr. induction pre as [|tr0 pre IH]; intros i out.
  - cbn [app rows_loop]. destruct (Htr i) as [e ->]. now exists e.
  - cbn [app rows_loop]. destruct (read_row i tr0) as [[row|]|e].
    + apply IH.
    + apply IH.
    + now exists e.
Qed.

Lemma read_rows_table (doc : Document) (table : Table) :
  tables doc !! 0 = Some table ->
  read_rows doc =
  (out ← rows_loop 1 (drop 1 (rows table)) [];
   if is_empty out then Raise (ValueError NoFilledRow) else Ok out).
Proof.
  intros H. unfold read_rows.
  destruct (tables doc) as [|t ts]; [discriminate|].
  cbn in H. inversion H; subst. reflexivity.
Qed.

(** A document whose rows are all blank or fully populated, one of them
    at least being populated, yields the records in row order. *)
Lemma read_rows_valid (doc : Document) :
  tables doc <> [] ->
  forallb row_passes (data_rows doc) = true ->
  omap row_record (data_rows doc) <> [] ->
  read_rows doc = Ok (omap row_record (data_rows doc)).
Proof.
  intros Ht Hp Hne. unfold data_rows in *.
  destruct (tables doc) as [|table ts] eqn:E; [contradiction|].
  rewrite (read_rows_table doc table) by now rewrite E.
  change (Z.to_nat DOCX_TABLE_INDEX) with 0 in *.
  change (if HAS_HEADER_ROW then 1 else 0) with 1 in *.
  cbn [lookup list_lookup] in Hp, Hne |- *.
  pose proof (rows_loop_passes (drop 1 (rows table)) [] 1 [] Hp) as L.
  rewrite app_nil_r in L. rewrite L. cbn [app mbind result_bind].
  destruct (omap row_record (drop 1 (rows table))); [congruence | reflexivity].
Qed.

(** Conversely a successful extraction means exactly that. *)
Lemma rows_loop_ok_inv (trs : list xml) (i : nat) (out res : list RowData) :
  rows_loop i trs out = Ok res ->
  forallb row_passes trs = true /\ res = out ++ omap row_record trs.
Proof.
  revert i out. induction trs as [|tr trs IH]; intros i out H.
  - cbn in H. inversion H. now rewrite app_nil_r.
  - cbn [rows_loop] in H.
    destruct (read_row i tr) as [o|e] eqn:R; [|discriminate].
    apply read_row_ok_inv in R as [Hp ->]. cbn [mbind result_bind] in H.
    cbn [forallb omap list_omap]. rewrite Hp.
    destruct (row_record tr) as [row|]; apply IH in H as [-> ->]; split; auto.
    now rewrite <- app_assoc.
Qed.

Lemma read_rows_ok_inv (doc : Document) (rs : list RowData) :
  read_rows doc = Ok rs ->
  forallb row_passes (data_rows doc) = true /\
  rs = omap row_record (data_rows doc) /\ rs <> [].
Proof.
  unfold read_rows, data_rows.
  destruct (tables doc) as [|table ts]; [discriminate|].
  change (Z.to_nat DOCX_TABLE_INDEX) with 0.
  change (if HAS_HEADER_ROW then 1 else 0) with 1.
  cbn [lookup list_lookup is_empty orb length getitem mbind result_bind].
  change ((DOCX_TABLE_INDEX <? 0)%Z) with false.
  replace ((DOCX_TABLE_INDEX >=? Z.of_nat (S (length ts)))%Z) with false
    by (symmetry; rewrite Z.geb_leb; apply Z.leb_gt; unfold DOCX_TABLE_INDEX; lia).
  cbn [orb].
  destruct (rows_loop 1 (drop 1 (rows table)) []) as [out|e] eqn:L; [|discriminate].
  apply rows_loop_ok_inv in L as [Hp ->]. cbn [app].
  destruct (omap row_record (drop 1 (rows table))) eqn:O; [discriminate|].
  intros H. inversion H. repeat split; auto; discriminate.
Qed.

(** C5, as the program has it. A data row with fewer than 3 unwrapped
    cells makes the extraction fail, so that no record sequence is
    produced; the error is the too-few-cells error carrying the 1-based
    number of that row whenever every earlier data row is blank or fully
    populated, the extraction stopping at the first offending row. *)
Theorem short_row_raises
    (doc : Document) (table : Table) (header tr : xml) (pre post : list xml) :
  tables doc !! 0 = Some table ->
  rows table = header :: pre ++ tr :: post ->
  length (_tcs_from_row_xml tr) < 3 ->
  (exists e, read_rows doc = Raise e) /\
  (forallb row_passes pre = true ->
   read_rows doc = Raise (ValueError (TooFewCells (length pre + 2)))).
Proof.
  intros Ht Hr Hshort. apply row_fields_short in Hshort.
  rewrite (read_rows_table doc table Ht), Hr. change (drop 1 (header :: pre ++ tr :: post)) with (pre ++ tr :: post).
  split.
  - destruct (rows_loop_raises pre post tr) with (i := 1) (out := @nil RowData)
      as [e He].
    + intros i. rewrite read_row_fields, Hshort. eauto.
    + rewrite He. now exists e.
  - intros Hpre. rewrite (rows_loop_passes pre (tr :: post) 1 [] Hpre).
    cbn [rows_loop]. rewrite read_row_fields, Hshort. cbn.
    do 3 f_equal. lia.
Qed.

Lemma short_row_raises_witness :
  let good := row_of [lit "Ivanov I.I."; lit "Birthday"; lit "Dear"] in
  let short := row_of [lit "Petrova A.B."; lit "Anniversary"] in
  length (_tcs_from_row_xml short) < 3 /\
  forallb row_passes [good] = true /\
  (exists e, read_rows short_second_row_doc = Raise e) /\
  read_rows short_second_row_doc = Raise (ValueError (TooFewCells 3)).
Proof.
  intros good short.
  assert (Hshort : length (_tcs_from_row_xml short) < 3) by (vm_compute; lia).
  pose proof (short_row_raises short_second_row_doc
                {| rows := [header_row; good; short] |} header_row short [good] []
                eq_refl eq_refl Hshort) as [Hfail Hrow].
  split; [exact Hshort | split; [reflexivity | split ]];
    [exact Hfail | exact (Hrow eq_refl)].
Defined.

(** The statement of the specification fails on a second short row: both data rows have
    two cells, and the error names row 2, not row 3. *)
Lemma later_short_row_not_reported :
  (exists table tr,
      tables two_short_rows_doc !! 0 = Some table /\
      rows table !! 2 = Some tr /\
      length (_tcs_from_row_xml tr) < 3) /\
  read_rows two_short_rows_doc = Raise (ValueError (TooFewCells 2)) /\
  read_rows two_short_rows_doc <> Raise (ValueError (TooFewCells 3)).
Proof.
  split; [|split].
  - eexists _, _. split; [reflexivity | split; [reflexivity | vm_compute; lia]].
  - reflexivity.
  - discriminate.
Qed.

(** C6, as the program has it. For a data row with at least 3 cells that
    is reached, every earlier data row being blank or fully populated: if
    its three normalized texts are all empty the row raises nothing and
    contributes no record, the extraction going on with the next row and
    the records of the earlier rows only; otherwise, if a field is empty,
    the extraction fails with the error of the first empty field in the
    order name, greeting, dear, carrying the 1-based row number; this is
    the empty field itself when exactly one is empty. *)
Theorem blank_row_skipped_partial_row_raises
    (doc : Document) (table : Table) (header tr : xml) (pre post : list xml)
    (n g d : str) :
  tables doc !! 0 = Some table ->
  rows table = header :: pre ++ tr :: post ->
  forallb row_passes pre = true ->
  row_fields tr = Some (n, g, d) ->
  (is_empty n && is_empty g && is_empty d = true ->
   row_record tr = None /\
   read_rows doc =
   (out ← rows_loop (length pre + 2) post (omap row_record pre);
    if is_empty out then Raise (ValueError NoFilledRow) else Ok out)) /\
  (is_empty n && is_empty g && is_empty d = false ->
   (is_empty n = true ->
    read_rows doc = Raise (ValueError (EmptyName (length pre + 2)))) /\
   (is_empty n = false -> is_empty g = true ->
    read_rows doc = Raise (ValueError (EmptyGreeting (length pre + 2)))) /\
   (is_empty n = false -> is_empty g = false -> is_empty d = true ->
    read_rows doc = Raise (ValueError (EmptyDear (length pre + 2))))).
Proof.
  intros Ht Hr Hpre Hf.
  rewrite (read_rows_table doc table Ht), Hr.
  change (drop 1 (header :: pre ++ tr :: post)) with (pre ++ tr :: post).
  rewrite (rows_loop_passes pre (tr :: post) 1 [] Hpre).
  cbn [rows_loop app]. rewrite read_row_fields, Hf.
  replace (1 + length pre + 1) with (length pre + 2) by lia.
  replace (S (1 + length pre)) with (length pre + 2) by lia.
  split.
  - intros Hblank. rewrite Hblank. split; [|reflexivity].
    unfold row_record, fully_populated. rewrite Hf.
    now destruct (is_empty n), (is_empty g), (is_empty d).
  - intros Hsome. rewrite Hsome.
    repeat split; intros; repeat match goal with H : is_empty _ = _ |- _ => rewrite H end;
      reflexivity.
Qed.

Lemma blank_row_skipped_partial_row_raises_witness :
  let good := row_of [lit "Ivanov I.I."; lit "Birthday"; lit "Dear"] in
  let blank := row_of [lit "  "; []; [NBSP]] in
  let partial := row_of [lit "Petrova A.B."; []; lit "Dear"] in
  (row_fields blank = Some ([], [], []) /\
   row_record blank = None /\
   read_rows blank_then_partial_doc =
   (out ← rows_loop 3 [partial] (omap row_record [good]);
    if is_empty out then Raise (ValueError NoFilledRow) else Ok out)) /\
  (row_fields partial = Some (lit "Petrova A.B.", [], lit "Dear") /\
   read_rows blank_then_partial_doc = Raise (ValueError (EmptyGreeting 4))).
Proof.
  intros good blank partial.
  pose (table := {| rows := [header_row; good; blank; partial] |}).
  split.
  - split; [reflexivity|].
    exact (proj1 (blank_row_skipped_partial_row_raises blank_then_partial_doc
                    table header_row blank [good] [partial] [] [] []
                    eq_refl eq_refl eq_refl eq_refl) eq_refl).
  - split; [reflexivity|].
    exact (proj1 (proj2 (proj2 (blank_row_skipped_partial_row_raises
                    blank_then_partial_doc table header_row partial [good; blank] []
                    (lit "Petrova A.B.") [] (lit "Dear")
                    eq_refl eq_refl eq_refl eq_refl) eq_refl)) eq_refl eq_refl).
Defined.

(** The statement of the specification fails where two fields are empty or an earlier
    row already failed: row 2 lacks name and greeting and row 3 lacks only
    the greeting, yet the one error raised names the name of row 2. *)
Lemma other_empty_fields_not_named :
  (exists table tr2 tr3,
      tables missing_fields_doc !! 0 = Some table /\
      rows table !! 1 = Some tr2 /\
      rows table !! 2 = Some tr3 /\
      row_fields tr2 = Some ([], [], lit "Dear") /\
      row_fields tr3 = Some (lit "Petrova A.B.", [], lit "Dear")) /\
  read_rows missing_fields_doc = Raise (ValueError (EmptyName 2)) /\
  read_rows missing_fields_doc <> Raise (ValueError (EmptyGreeting 2)) /\
  read_rows missing_fields_doc <> Raise (ValueError (EmptyGreeting 3)).
Proof.
  split; [|split; [|split]].
  - eexists _, _, _. split; [reflexivity|]. repeat (split; [reflexivity|]). reflexivity.
  - reflexivity.
  - discriminate.
  - discriminate.
Qed.

(** ** The store and the PDF libraries *)

Lemma alloc_all_run (ps : list PageObject) (st : store) :
  alloc_all ps st
  = Ok (seq (length (heap st)) (length ps),
        {| heap := heap st ++ ps; ticks := ticks st |}).
Proof.
  revert st. induction ps as [|p ps IH]; intros st.
  - cbn. rewrite app_nil_r. now destruct st.
  - cbn [alloc_all]. unfold mbind, M_bind, alloc at 1. rewrite IH. cbn.
    rewrite length_app, <- app_assoc. cbn.
    now replace (length (heap st) + 1) with (S (length (heap st))) by lia.
Qed.

Lemma PdfReader_open_run (b : PdfFile) (st : store) :
  PdfReader_open b st
  = Ok ({| reader_pages := seq (length (heap st)) (length (file_pages b)) |},
        {| heap := heap st ++ file_pages b; ticks := ticks st |}).
Proof. unfold PdfReader_open, mbind, M_bind. now rewrite alloc_all_run. Qed.

Lemma make_overlay_pdf_run (w : World) (pw ph : float) (s g : str) (st : store) :
  make_overlay_pdf w pw ph s g st
  = Ok ({| creation_date := Some (time w (ticks st));
           file_pages := [overlay_page pw ph s g] |},
        {| heap := heap st; ticks := S (ticks st) |}).
Proof. reflexivity. Qed.

Lemma bind_run {A B} (m : M A) (f : A -> M B) (st st' : store) (a : A) :
  m st = Ok (a, st') -> (m ≫= f) st = f a st'.
Proof. intros H. unfold mbind, M_bind. now rewrite H. Qed.

Lemma lift_ok_run {A} (r : result A) (a : A) (st : store) :
  r = Ok a -> lift r st = Ok (a, st).
Proof. now intros ->. Qed.

Lemma deref_run (a : addr) (p : PageObject) (st : store) :
  heap st !! a = Some p -> deref a st = Ok (p, st).
Proof. intros H. unfold deref. now rewrite H. Qed.

Lemma clone_of_fresh (page n : addr) (memo : list (addr * addr)) :
  (forall src c, In (src, c) memo -> src < n) ->
  n <= page ->
  clone_of page memo = None.
Proof.
  intros H Hn. induction memo as [|[src c] memo IH]; [reflexivity|].
  cbn [clone_of].
  assert (src < n) by (apply (H src c); now left).
  destruct (Nat.eqb_spec src page); [lia|].
  apply IH. intros src' c' Hin. apply (H src' c'). now right.
Qed.

Lemma add_page_fresh (writer : PdfWriter) (page : addr) (p : PageObject) (st : store) :
  clone_of page (cloned writer) = None ->
  heap st !! page = Some p ->
  add_page writer page st
  = Ok (({| writer_pages := writer_pages writer ++ [length (heap st)];
            cloned := (page, length (heap st)) :: cloned writer |},
         length (heap st)),
        {| heap := heap st ++ [p]; ticks := ticks st |}).
Proof.
  intros Hc Hp. unfold add_page. rewrite Hc.
  rewrite (bind_run _ _ st st p (deref_run page p st Hp)).
  reflexivity.
Qed.

Lemma merge_page_run (a b : addr) (p p2 : PageObject) (st : store) :
  heap st !! a = Some p ->
  heap st !! b = Some p2 ->
  merge_page a b st
  = Ok (tt, {| heap := <[a := merged p p2]> (heap st); ticks := ticks st |}).
Proof.
  intros Ha Hb. unfold merge_page.
  rewrite (bind_run _ _ st st p (deref_run a p st Ha)).
  rewrite (bind_run _ _ st st p2 (deref_run b p2 st Hb)).
  reflexivity.
Qed.

Lemma format_salutation (row : RowData) :
  format SALUTATION_FORMAT row = Ok (salutation_of row).
Proof. reflexivity. Qed.

Lemma format_greeting (row : RowData) :
  format GREETING_FORMAT row = Ok (greeting_of row).
Proof. cbn. unfold greeting_of. f_equal. apply app_nil_r. Qed.

(** One turn of the loop: the overlay page, the pages of the template
    parsed anew and the generated page are new objects; nothing else in the
    store changes. *)
Lemma emit_row_page_run (w : World) (tpl : PdfFile) (pw ph : float)
    (writer : PdfWriter) (row : RowData) (st : store) (base : PageObject) :
  writer_ok writer st ->
  file_pages tpl !! 1 = Some base ->
  let ov := overlay_page pw ph (salutation_of row) (greeting_of row) in
  let new := length (heap st) + 1 + length (file_pages tpl) in
  emit_row_page w tpl pw ph writer row st
  = Ok ({| writer_pages := writer_pages writer ++ [new];
           cloned := (length (heap st) + 2, new) :: cloned writer |},
        {| heap := heap st ++ [ov] ++ file_pages tpl ++ [merged base ov];
           ticks := S (ticks st) |}).
Proof.
  intros [Hmemo Hpages] Hbase ov new. unfold emit_row_page.
  pose proof (lookup_lt_Some _ _ _ Hbase) as Hlen.
  rewrite (bind_run _ _ st st _ (lift_ok_run _ _ st (format_salutation row))).
  rewrite (bind_run _ _ st st _ (lift_ok_run _ _ st (format_greeting row))).
  rewrite (bind_run _ _ _ _ _ (make_overlay_pdf_run w pw ph _ _ st)).
  rewrite (bind_run _ _ _ _ _ (PdfReader_open_run _ _)).
  cbn [heap ticks file_pages reader_pages length seq].
  rewrite (bind_run _ _ _ _ (length (heap st)) (lift_ok_run _ _ _ eq_refl)).
  rewrite (bind_run _ _ _ _ _ (PdfReader_open_run _ _)).
  cbn [heap ticks reader_pages].
  set (h1 := (heap st ++ [overlay_page pw ph (salutation_of row) (greeting_of row)])
             ++ file_pages tpl).
  assert (Hl1 : length (heap st ++ [ov]) = length (heap st) + 1)
    by (rewrite length_app; reflexivity).
  fold ov in h1 |- *. rewrite Hl1.
  assert (Hget : getitem (seq (length (heap st) + 1) (length (file_pages tpl))) 1
                 = Ok (length (heap st) + 2)).
  { unfold getitem. rewrite lookup_seq_lt by exact Hlen. f_equal. lia. }
  rewrite (bind_run _ _ _ _ _ (lift_ok_run _ _ _ Hget)).
  assert (Hfresh : clone_of (length (heap st) + 2) (cloned writer) = None).
  { apply (clone_of_fresh _ (length (heap st))); [exact Hmemo | lia]. }
  assert (Hb : h1 !! (length (heap st) + 2) = Some base).
  { unfold h1. rewrite lookup_app_r by (rewrite Hl1; lia).
    rewrite Hl1. now replace (length (heap st) + 2 - (length (heap st) + 1)) with 1 by lia. }
  rewrite (bind_run _ _ _ _ _
             (add_page_fresh writer _ base {| heap := h1; ticks := S (ticks st) |} Hfresh Hb)).
  cbn [heap ticks].
  assert (Hl2 : length h1 = new).
  { unfold h1, new. rewrite length_app, Hl1. reflexivity. }
  rewrite Hl2.
  assert (Hnew : (h1 ++ [base]) !! new = Some base).
  { rewrite <- Hl2. now rewrite lookup_app_r, Nat.sub_diag by lia. }
  assert (Hov : (h1 ++ [base]) !! length (heap st) = Some ov).
  { unfold h1. rewrite <- !app_assoc.
    rewrite lookup_app_r, Nat.sub_diag by lia. reflexivity. }
  rewrite (bind_run _ _ _ _ _
             (merge_page_run new (length (heap st)) base ov
                {| heap := h1 ++ [base]; ticks := S (ticks st) |} Hnew Hov)).
  cbn [heap ticks]. unfold mret, M_ret. do 3 f_equal.
  rewrite <- Hl2.
  replace (length h1) with (length h1 + 0) by lia.
  rewrite insert_app_r. cbn. unfold h1. now rewrite <- !app_assoc.
Qed.

Lemma pages_at_extend (l : list addr) (st st' : store) (ext : list PageObject) :
  Forall (fun a => a < length (heap st)) l ->
  heap st' = heap st ++ ext ->
  pages_at l st' = pages_at l st.
Proof.
  intros Hl He. unfold pages_at. apply map_ext_in. intros a Ha.
  rewrite Forall_forall in Hl. rewrite He. apply lookup_app_l.
  apply Hl. now apply list_elem_of_In.
Qed.

Lemma writer_ok_extend (writer : PdfWriter) (st st' : store) (ext : list PageObject) :
  writer_ok writer st ->
  heap st' = heap st ++ ext ->
  writer_ok writer st'.
Proof.
  intros [Hm Hp] He. split.
  - intros src c Hin. rewrite He, length_app. specialize (Hm src c Hin). lia.
  - eapply Forall_impl; [exact Hp|]. cbn. intros a Ha. rewrite He, length_app. lia.
Qed.

(** The loop over the records: it always completes, appends one page per
    record in order, each being the reference page as the template has it
    merged with the overlay of the record, and leaves every page object
    that existed before as it was. *)
Lemma for_rows_run (w : World) (tpl : PdfFile) (pw ph : float) (base : PageObject)
    (rows : list RowData) :
  file_pages tpl !! 1 = Some base ->
  forall (writer : PdfWriter) (st : store),
    writer_ok writer st ->
    exists writer' st' news ext,
      for_rows w tpl pw ph rows writer st = Ok (writer', st') /\
      writer_ok writer' st' /\
      heap st' = heap st ++ ext /\
      ticks st' = ticks st + length rows /\
      writer_pages writer' = writer_pages writer ++ news /\
      Forall (fun a => length (heap st) <= a) news /\
      pages_at news st'
      = map (fun row => Some (merged base (overlay_page pw ph (salutation_of row)
                                             (greeting_of row)))) rows.
Proof.
  intros Hbase. induction rows as [|row rows IH]; intros writer st Hok.
  - exists writer, st, [], []. cbn. rewrite !app_nil_r, Nat.add_0_r. auto 10.
  - cbn [for_rows].
    pose proof (emit_row_page_run w tpl pw ph writer row st base Hok Hbase) as Hrun.
    cbv zeta in Hrun.
    set (ov := overlay_page pw ph (salutation_of row) (greeting_of row)) in *.
    set (new := length (heap st) + 1 + length (file_pages tpl)) in *.
    set (st1 := {| heap := heap st ++ [ov] ++ file_pages tpl ++ [merged base ov];
                   ticks := S (ticks st) |}) in *.
    set (writer1 := {| writer_pages := writer_pages writer ++ [new];
                       cloned := (length (heap st) + 2, new) :: cloned writer |}) in *.
    rewrite (bind_run _ _ _ _ _ Hrun).
    assert (Hlen1 : length (heap st1)
                    = length (heap st) + 1 + length (file_pages tpl) + 1).
    { unfold st1. cbn [heap]. rewrite !length_app. cbn [length]. lia. }
    pose proof (lookup_lt_Some _ _ _ Hbase) as Hn.
    assert (Hok1 : writer_ok writer1 st1).
    { destruct Hok as [Hm Hp]. split.
      - rewrite Hlen1. intros src c [E | Hin]; [inversion E; subst; lia|].
        specialize (Hm src c Hin). lia.
      - rewrite Hlen1. unfold writer1. cbn [writer_pages]. apply Forall_app. split.
        + eapply Forall_impl; [exact Hp|]. cbn beta. intros a Ha. lia.
        + constructor; [unfold new; lia | constructor]. }
    destruct (IH writer1 st1 Hok1)
      as (writer' & st' & news & ext & Hfor & Hok' & Hheap & Hticks & Hpages & Hge & Hat).
    exists writer', st', (new :: news), (([ov] ++ file_pages tpl ++ [merged base ov]) ++ ext).
    split; [exact Hfor|]. split; [exact Hok'|].
    split; [rewrite Hheap; unfold st1; cbn [heap]; now rewrite <- !app_assoc|].
    split; [rewrite Hticks; unfold st1; cbn [ticks length]; lia|].
    split; [rewrite Hpages; unfold writer1; cbn [writer_pages]; now rewrite <- app_assoc|].
    split.
    + constructor; [unfold new; lia|].
      eapply Forall_impl; [exact Hge|]. cbn beta. rewrite Hlen1. intros a Ha. lia.
    + cbn [pages_at map]. fold (pages_at news st'). rewrite Hat. f_equal.
      rewrite Hheap. rewrite lookup_app_l by (rewrite Hlen1; unfold new; lia).
      unfold st1. cbn [heap].
      replace (heap st ++ [ov] ++ file_pages tpl ++ [merged base ov])
        with ((heap st ++ [ov] ++ file_pages tpl) ++ [merged base ov])
        by (now rewrite <- !app_assoc).
      rewrite lookup_app_r by (rewrite !length_app; cbn [length]; unfold new; lia).
      replace (new - length (heap st ++ [ov] ++ file_pages tpl)) with 0
        by (rewrite !length_app; cbn [length]; unfold new; lia).
      reflexivity.
Qed.

(** From the template to the cover page. *)
Lemma start_writer_run (w : World) (tpl : PdfFile) (cover base : PageObject)
    (st : store) :
  template_pdf w = Some tpl ->
  file_pages tpl !! 0 = Some cover ->
  file_pages tpl !! 1 = Some base ->
  let new := length (heap st) + length (file_pages tpl) in
  start_writer w st
  = Ok ((tpl, (width (mediabox base), height (mediabox base)),
         {| writer_pages := [new]; cloned := [(length (heap st), new)] |}),
        {| heap := heap st ++ file_pages tpl ++ [cover]; ticks := ticks st |}).
Proof.
  intros Ht Hcover Hbase new. unfold start_writer.
  pose proof (lookup_lt_Some _ _ _ Hbase) as Hn.
  assert (Hread : read_template w = Ok tpl) by (unfold read_template; now rewrite Ht).
  rewrite (bind_run _ _ _ _ _ (lift_ok_run _ _ st Hread)).
  rewrite (bind_run _ _ _ _ _ (PdfReader_open_run _ _)).
  cbn [reader_pages]. rewrite length_seq.
  destruct (Nat.ltb_spec (length (file_pages tpl)) 2) as [|_]; [lia|].
  set (st1 := {| heap := heap st ++ file_pages tpl; ticks := ticks st |}).
  assert (H0 : getitem (seq (length (heap st)) (length (file_pages tpl))) 0
               = Ok (length (heap st))).
  { unfold getitem. rewrite lookup_seq_lt by lia. f_equal. lia. }
  assert (H1 : getitem (seq (length (heap st)) (length (file_pages tpl))) 1
               = Ok (length (heap st) + 1)).
  { unfold getitem. now rewrite lookup_seq_lt by lia. }
  rewrite (bind_run _ _ _ _ _ (lift_ok_run _ _ st1 H0)).
  rewrite (bind_run _ _ _ _ _ (lift_ok_run _ _ st1 H1)).
  assert (Hb : heap st1 !! (length (heap st) + 1) = Some base).
  { unfold st1. cbn [heap]. rewrite lookup_app_r by lia.
    now replace (length (heap st) + 1 - length (heap st)) with 1 by lia. }
  assert (Hc : heap st1 !! length (heap st) = Some cover).
  { unfold st1. cbn [heap]. now rewrite lookup_app_r, Nat.sub_diag by lia. }
  rewrite (bind_run _ _ _ _ _ (deref_run _ _ st1 Hb)).
  rewrite (bind_run _ _ _ _ _
             (add_page_fresh PdfWriter_new _ cover st1 eq_refl Hc)).
  unfold st1. cbn [heap ticks]. rewrite length_app, <- app_assoc. reflexivity.
Qed.

Lemma bind_raise {A B} (m : M A) (f : A -> M B) (st : store) (e : exn) :
  m st = Raise e -> (m ≫= f) st = Raise e.
Proof. intros H. unfold mbind, M_bind. now rewrite H. Qed.

Lemma start_writer_needs_template (w : World) (st : store) :
  (forall tpl, template_pdf w = Some tpl -> length (file_pages tpl) < 2) ->
  exists e, start_writer w st = Raise e.
Proof.
  intros H. unfold start_writer, read_template.
  destruct (template_pdf w) as [tpl|] eqn:Ht.
  - specialize (H tpl eq_refl).
    rewrite (bind_run _ _ _ _ _ (lift_ok_run _ _ st eq_refl)).
    rewrite (bind_run _ _ _ _ _ (PdfReader_open_run _ _)).
    cbn [reader_pages]. rewrite length_seq.
    destruct (Nat.ltb_spec (length (file_pages tpl)) 2); [|lia].
    now eexists.
  - now eexists.
Qed.

Lemma for_rows_app (w : World) (tpl : PdfFile) (pw ph : float)
    (rows1 rows2 : list RowData) (writer : PdfWriter) (st : store) :
  for_rows w tpl pw ph (rows1 ++ rows2) writer st
  = (for_rows w tpl pw ph rows1 writer ≫= for_rows w tpl pw ph rows2) st.
Proof.
  revert writer st. induction rows1 as [|row rows1 IH]; intros writer st.
  - reflexivity.
  - cbn [app for_rows]. unfold mbind, M_bind in *.
    destruct (emit_row_page w tpl pw ph writer row st) as [[writer1 st1]|e];
      [apply IH | reflexivity].
Qed.

(** The compositor after any records: the writer holds the cover page
    followed by the page generated for each record, in order. *)
Lemma composed_run (w : World) (tpl : PdfFile) (cover base : PageObject)
    (rows : list RowData) (st : store) :
  template_pdf w = Some tpl ->
  file_pages tpl !! 0 = Some cover ->
  file_pages tpl !! 1 = Some base ->
  exists writer st' ext,
    composed w rows st
    = Ok ((tpl, (width (mediabox base), height (mediabox base)), writer), st') /\
    writer_ok writer st' /\
    heap st' = heap st ++ ext /\
    ticks st' = ticks st + length rows /\
    pages_at (writer_pages writer) st'
    = Some cover :: map (fun row => Some (page_for base row)) rows.
Proof.
  intros Ht Hcover Hbase. unfold composed.
  pose proof (start_writer_run w tpl cover base st Ht Hcover Hbase) as Hstart.
  cbv zeta in Hstart.
  set (new := length (heap st) + length (file_pages tpl)) in *.
  set (st0 := {| heap := heap st ++ file_pages tpl ++ [cover]; ticks := ticks st |}) in *.
  set (writer0 := {| writer_pages := [new]; cloned := [(length (heap st), new)] |}) in *.
  assert (Hlen0 : length (heap st0) = new + 1).
  { unfold st0, new. cbn [heap]. rewrite !length_app. cbn [length]. lia. }
  assert (Hok0 : writer_ok writer0 st0).
  { split.
    - rewrite Hlen0. intros src c [E | []]. inversion E; subst. unfold new. lia.
    - rewrite Hlen0. repeat constructor. lia. }
  destruct (for_rows_run w tpl (width (mediabox base)) (height (mediabox base))
              base rows Hbase writer0 st0 Hok0)
    as (writer' & st' & news & ext & Hfor & Hok' & Hheap & Hticks & Hpages & Hge & Hat).
  exists writer', st', ((file_pages tpl ++ [cover]) ++ ext).
  rewrite (bind_run _ _ _ _ _ Hstart). cbn beta iota.
  rewrite (bind_run _ _ _ _ _ Hfor).
  split; [reflexivity|]. split; [exact Hok'|].
  split; [rewrite Hheap; unfold st0; cbn [heap]; now rewrite <- !app_assoc|].
  split; [exact Hticks|].
  rewrite Hpages. unfold writer0. cbn [writer_pages app pages_at map].
  fold (pages_at news st'). rewrite Hat. f_equal.
  rewrite Hheap, lookup_app_l by (rewrite Hlen0; lia).
  unfold st0. cbn [heap]. rewrite app_assoc.
  rewrite lookup_app_r by (rewrite length_app; unfold new; lia).
  replace (new - length (heap st ++ file_pages tpl)) with 0
    by (rewrite length_app; unfold new; lia).
  reflexivity.
Qed.

Lemma composed_ok_inv (w : World) (rows : list RowData) (st st1 : store)
    (tpl : PdfFile) (size : float * float) (writer : PdfWriter) :
  composed w rows st = Ok ((tpl, size, writer), st1) ->
  exists cover base,
    template_pdf w = Some tpl /\
    file_pages tpl !! 0 = Some cover /\
    file_pages tpl !! 1 = Some base /\
    size = (width (mediabox base), height (mediabox base)).
Proof.
  intros H.
  destruct (template_pdf w) as [tpl0|] eqn:Ht.
  - destruct (file_pages tpl0) as [|cover [|base rest]] eqn:Hp.
    1,2: destruct (start_writer_needs_template w st) as [e He];
      [intros t Et; rewrite Ht in Et; inversion Et; subst; rewrite Hp; cbn; lia|];
      unfold composed in H; rewrite (bind_raise _ _ _ _ He) in H; discriminate.
    destruct (composed_run w tpl0 cover base rows st Ht)
      as (writer' & st' & ext & Hc & _); [now rewrite Hp..|].
    rewrite Hc in H. inversion H; subst. exists cover, base. rewrite Hp. auto.
  - destruct (start_writer_needs_template w st) as [e He];
      [intros t Et; rewrite Ht in Et; discriminate|].
    unfold composed in H. rewrite (bind_raise _ _ _ _ He) in H. discriminate.
Qed.

Lemma deref_all_run (l : list addr) (ps : list PageObject) (st : store) :
  pages_at l st = map Some ps -> deref_all l st = Ok (ps, st).
Proof.
  revert ps. induction l as [|a l IH]; intros [|p ps] H; try discriminate.
  - reflexivity.
  - cbn [pages_at map] in H. inversion H as [[Ha Hl]].
    cbn [deref_all].
    rewrite (bind_run _ _ _ _ _ (deref_run a p st Ha)).
    now rewrite (bind_run _ _ _ _ _ (IH ps Hl)).
Qed.

(** ** Page compositor *)

(** C2. Parsing a PDF gives page objects that are all new and hold the
    pages of the file, and leaves the existing objects alone; so the
    reference page handed to the writer for a record is an unshared copy
    of page 1 of the stored template. And the turn of the loop for a
    record appends exactly one page, a new object holding the reference
    page as the template has it merged with the overlay of that record,
    while every page object that existed before, hence the cover page and
    the pages of the earlier records, is unchanged. *)
Theorem fresh_base_page_frame :
  (forall (b : PdfFile) (st : store),
      exists reader st',
        PdfReader_open b st = Ok (reader, st') /\
        length (reader_pages reader) = length (file_pages b) /\
        (forall i a, reader_pages reader !! i = Some a ->
                     heap st !! a = None /\ heap st' !! a = file_pages b !! i) /\
        (forall a p, heap st !! a = Some p -> heap st' !! a = Some p)) /\
  (forall (w : World) (st : store) (rows : list RowData) (row : RowData)
          (tpl : PdfFile) (size : float * float) (writer1 : PdfWriter) (st1 : store),
      composed w rows st = Ok ((tpl, size, writer1), st1) ->
      exists writer2 st2 new base,
        emit_row_page w tpl (fst size) (snd size) writer1 row st1 = Ok (writer2, st2) /\
        composed w (rows ++ [row]) st = Ok ((tpl, size, writer2), st2) /\
        file_pages tpl !! 1 = Some base /\
        writer_pages writer2 = writer_pages writer1 ++ [new] /\
        heap st1 !! new = None /\
        heap st2 !! new = Some (page_for base row) /\
        (forall a p, heap st1 !! a = Some p -> heap st2 !! a = Some p) /\
        pages_at (writer_pages writer2) st2
        = pages_at (writer_pages writer1) st1 ++ [Some (page_for base row)]).
Proof.
  split.
  - intros b st. eexists _, _. split; [apply PdfReader_open_run|].
    cbn [reader_pages heap]. split; [apply length_seq|]. split.
    + intros i a Hi. apply lookup_seq in Hi as [-> Hlt]. split.
      * apply lookup_ge_None. lia.
      * rewrite lookup_app_r by lia. f_equal. lia.
    + intros a p Ha. now apply lookup_app_l_Some.
  - intros w st rows row tpl size writer1 st1 H.
    destruct (composed_ok_inv _ _ _ _ _ _ _ H) as (cover & base & Ht & Hcover & Hbase & ->).
    destruct (composed_run w tpl cover base rows st Ht Hcover Hbase)
      as (writer' & st' & ext & Hc & Hok & _ & _ & _).
    rewrite Hc in H. inversion H; subst writer' st'. clear H.
    pose proof (emit_row_page_run w tpl (width (mediabox base)) (height (mediabox base))
                  writer1 row st1 base Hok Hbase) as Hrun.
    cbv zeta in Hrun.
    set (new := length (heap st1) + 1 + length (file_pages tpl)) in *.
    fold (page_for base row) in Hrun.
    eexists _, _, new, base. cbn [fst snd].
    split; [exact Hrun|].
    assert (Hnew : (heap st1 ++ [overlay_page (width (mediabox base))
                                   (height (mediabox base)) (salutation_of row)
                                   (greeting_of row)]
                    ++ file_pages tpl ++ [page_for base row]) !! new
                   = Some (page_for base row)).
    { rewrite !app_assoc.
      rewrite lookup_app_r by (rewrite !length_app; cbn [length]; unfold new; lia).
      replace (new - _) with 0 by (rewrite !length_app; cbn [length]; unfold new; lia).
      reflexivity. }
    split; [|split; [exact Hbase|split; [reflexivity|split; [|split; [|split]]]]].
    + (* the run over the longer list *)
      unfold composed in Hc |- *.
      pose proof (start_writer_run w tpl cover base st Ht Hcover Hbase) as Hstart.
      cbv zeta in Hstart.
      rewrite (bind_run _ _ _ _ _ Hstart) in Hc.
      rewrite (bind_run _ _ _ _ _ Hstart). cbn beta iota in Hc |- *.
      unfold mbind at 1, M_bind at 1 in Hc.
      unfold mbind at 1, M_bind at 1. rewrite for_rows_app.
      unfold mbind at 1, M_bind at 1.
      destruct (for_rows w tpl _ _ rows _ _) as [[wr s]|e]; [|discriminate].
      inversion Hc; subst wr s. cbn [for_rows].
      rewrite (bind_run _ _ _ _ _ Hrun). reflexivity.
    + apply lookup_ge_None. unfold new. lia.
    + exact Hnew.
    + intros a p Ha. cbn [heap]. now apply lookup_app_l_Some.
    + cbn [writer_pages]. unfold pages_at at 1. rewrite map_app. cbn [map heap].
      apply (f_equal2 (@app _)); [|apply (f_equal (fun x => [x])); exact Hnew].
      eapply (pages_at_extend _ st1 {| heap := _; ticks := 0 |}); [apply Hok|].
      reflexivity.
Qed.

Lemma fresh_base_page_frame_witness :
  let w := sample_world evening ivanov_petrova_doc in
  exists tpl size writer1 st1 writer2 st2 new base,
    composed w [ivanov] empty_store = Ok ((tpl, size, writer1), st1) /\
    emit_row_page w tpl (fst size) (snd size) writer1 petrova st1 = Ok (writer2, st2) /\
    composed w ([ivanov] ++ [petrova]) empty_store = Ok ((tpl, size, writer2), st2) /\
    file_pages tpl !! 1 = Some base /\
    writer_pages writer2 = writer_pages writer1 ++ [new] /\
    heap st1 !! new = None /\
    heap st2 !! new = Some (page_for base petrova) /\
    (forall a p, heap st1 !! a = Some p -> heap st2 !! a = Some p) /\
    pages_at (writer_pages writer2) st2
    = pages_at (writer_pages writer1) st1 ++ [Some (page_for base petrova)].
Proof.
  intros w.
  destruct (composed w [ivanov] empty_store) as [[[[tpl size] writer1] st1]|e] eqn:Hc;
    [|discriminate Hc].
  destruct (proj2 fresh_base_page_frame w empty_store [ivanov] petrova
              tpl size writer1 st1 Hc)
    as (writer2 & st2 & new & base & H).
  exists tpl, size, writer1, st1, writer2, st2, new, base.
  split; [reflexivity | exact H].
Defined.

Lemma output_filename_run (w : World) (docx_path : str) (tz : Z -> Z) (st : store) :
  zoneinfo w TZ_NAME = Some tz ->
  output_filename_from_docx w docx_path st
  = Ok (date_name (fromtimestamp (time w (ticks st)) tz),
        {| heap := heap st; ticks := S (ticks st) |}).
Proof.
  intros H. unfold output_filename_from_docx, ZoneInfo. rewrite H. reflexivity.
Qed.

Lemma output_filename_no_zone (w : World) (docx_path : str) (st : store) :
  zoneinfo w TZ_NAME = None ->
  output_filename_from_docx w docx_path st = Raise ZoneInfoNotFoundError.
Proof.
  intros H. unfold output_filename_from_docx, ZoneInfo. rewrite H. reflexivity.
Qed.

Lemma length_omap_row_record (trs : list xml) :
  length (omap row_record trs) = length (List.filter fully_populated trs).
Proof.
  induction trs as [|tr trs IH]; [reflexivity|].
  cbn [omap list_omap List.filter]. unfold row_record at 1.
  destruct (row_fields tr) as [[[n g] d]|] eqn:F.
  - destruct (fully_populated tr); cbn [length]; now rewrite IH.
  - unfold fully_populated. rewrite F. exact IH.
Qed.

(** C1. When the document passes validation, the template has its two
    pages, the font file exists and loads and the zone is known, [generate_pdf]
    completes and the file it writes has exactly [1 + N] pages, [N] being
    the number of fully populated data rows: page 0 of the template as it
    is, then the page generated for each record, the records being those
    of the fully populated rows in row order. *)
Theorem generate_pdf_pages
    (w : World) (docx_path : str) (doc : Document) (rows : list RowData)
    (tpl : PdfFile) (tz : Z -> Z) (st : store) :
  docx w docx_path = Some doc ->
  read_rows doc = Ok rows ->
  template_pdf w = Some tpl ->
  2 <= length (file_pages tpl) ->
  font_ttf w = true ->
  font_loads w = true ->
  zoneinfo w TZ_NAME = Some tz ->
  exists out_path written st' cover base,
    generate_pdf w docx_path st = Ok ((out_path, written), st') /\
    file_pages tpl !! 0 = Some cover /\
    file_pages tpl !! 1 = Some base /\
    rows = omap row_record (data_rows doc) /\
    length (file_pages written)
    = 1 + length (List.filter fully_populated (data_rows doc)) /\
    file_pages written = cover :: map (page_for base) rows.
Proof.
  intros Hdocx Hrows Ht Hlen Hfont Hloads Htz.
  destruct (file_pages tpl) as [|cover [|base rest]] eqn:Hp; cbn in Hlen; try lia.
  assert (Hcover : file_pages tpl !! 0 = Some cover) by now rewrite Hp.
  assert (Hbase : file_pages tpl !! 1 = Some base) by now rewrite Hp.
  rewrite <- Hp.
  destruct (read_rows_ok_inv doc rows Hrows) as (_ & Hrec & _).
  destruct (composed_run w tpl cover base rows st Ht Hcover Hbase)
    as (writer & st1 & ext & Hc & Hok & Hheap & Hticks & Hat).
  pose proof (start_writer_run w tpl cover base st Ht Hcover Hbase) as Hstart.
  cbv zeta in Hstart.
  unfold composed in Hc. rewrite (bind_run _ _ _ _ _ Hstart) in Hc.
  cbn beta iota in Hc. unfold mbind at 1, M_bind at 1 in Hc.
  destruct (for_rows w tpl _ _ rows _ _) as [[wr s]|e] eqn:Hfor; [|discriminate].
  inversion Hc; subst wr s. clear Hc.
  assert (Hwrite : PdfWriter_write writer {| heap := heap st1; ticks := S (ticks st1) |}
                   = Ok ({| creation_date := None;
                            file_pages := cover :: map (page_for base) rows |},
                         {| heap := heap st1; ticks := S (ticks st1) |})).
  { assert (Hat' : pages_at (writer_pages writer)
                      {| heap := heap st1; ticks := S (ticks st1) |}
                    = map Some (cover :: map (page_for base) rows)).
    { cbn [map]. rewrite map_map. exact Hat. }
    unfold PdfWriter_write.
    rewrite (bind_run _ _ _ _ _ (deref_all_run _ _ _ Hat')).
    reflexivity. }
  eexists _, _, _, cover, base.
  split.
  - unfold generate_pdf. rewrite Ht, Hfont. cbn [negb].
    rewrite bool_decide_eq_true_2 by eauto. cbn [negb].
    assert (Hread : read_rows_from_docx w docx_path = Ok rows)
      by (unfold read_rows_from_docx; now rewrite Hdocx).
    rewrite (bind_run _ _ _ _ _ (lift_ok_run _ _ st Hread)).
    assert (Hreg : registerFont w = Ok tt) by (unfold registerFont; now rewrite Hloads).
    rewrite (bind_run _ _ _ _ _ (lift_ok_run _ _ st Hreg)).
    rewrite (bind_run _ _ _ _ _ Hstart). cbn beta iota.
    rewrite (bind_run _ _ _ _ _ Hfor).
    rewrite (bind_run _ _ _ _ _ (output_filename_run w docx_path tz st1 Htz)).
    rewrite (bind_run _ _ _ _ _ Hwrite).
    reflexivity.
  - split; [exact Hcover|]. split; [exact Hbase|]. split; [exact Hrec|].
    cbn [file_pages length]. split; [|reflexivity].
    now rewrite length_map, Hrec, length_omap_row_record.
Qed.

Lemma generate_pdf_pages_witness :
  let w := sample_world evening ivanov_petrova_doc in
  read_rows ivanov_petrova_doc = Ok [ivanov; petrova] /\
  exists out_path written st' cover base,
    generate_pdf w (lit "list.docx") empty_store = Ok ((out_path, written), st') /\
    file_pages sample_template !! 0 = Some cover /\
    file_pages sample_template !! 1 = Some base /\
    [ivanov; petrova] = omap row_record (data_rows ivanov_petrova_doc) /\
    length (file_pages written)
    = 1 + length (List.filter fully_populated (data_rows ivanov_petrova_doc)) /\
    file_pages written = cover :: map (page_for base) [ivanov; petrova].
Proof.
  intros w. split; [reflexivity|].
  apply (generate_pdf_pages w (lit "list.docx") ivanov_petrova_doc [ivanov; petrova]
           sample_template (fun _ => 10800%Z) empty_store);
    [reflexivity | reflexivity | reflexivity | cbn; lia | reflexivity | reflexivity
    | reflexivity].
Defined.


(** ** Overlay renderer *)

(** ** Numbers as reportlab writes them *)






Lemma pow10_pos_le (l : nat) : (1 <= Zpos (pow10 l))%Z.
Proof. lia. Qed.












(** The statement of the specification fails: the clock moving on by one second between
    two renderings of the same record, the two overlay files differ. *)
Lemma overlay_bytes_differ_between_runs :
  let w := sample_world evening ivanov_petrova_doc in
  exists f1 st1 f2 st2,
    make_overlay_pdf w 200%Q 400%Q (salutation_of ivanov) (greeting_of ivanov) empty_store
    = Ok (f1, st1) /\
    make_overlay_pdf w 200%Q 400%Q (salutation_of ivanov) (greeting_of ivanov) st1
    = Ok (f2, st2) /\
    f1 <> f2.
Proof.
  intros w. eexists _, _, _, _.
  split; [apply make_overlay_pdf_run|]. split; [apply make_overlay_pdf_run|].
  cbn. intros H. inversion H.
Qed.

(** C8, as the program has it. Two renderings with the same width,
    height and texts always complete and give overlays with the same
    single page, whatever the world and the store; each overlay file
    carries, besides the page, the time the canvas read from the clock, so
    the two files are equal exactly when the two clock readings are. *)
Theorem overlay_same_up_to_time_stamp
    (w1 w2 : World) (pw ph : float) (s g : str) (st1 st2 : store) :
  exists f1 st1' f2 st2',
    make_overlay_pdf w1 pw ph s g st1 = Ok (f1, st1') /\
    make_overlay_pdf w2 pw ph s g st2 = Ok (f2, st2') /\
    file_pages f1 = [overlay_page pw ph s g] /\
    file_pages f1 = file_pages f2 /\
    creation_date f1 = Some (time w1 (ticks st1)) /\
    creation_date f2 = Some (time w2 (ticks st2)) /\
    (f1 = f2 <-> time w1 (ticks st1) = time w2 (ticks st2)).
Proof.
  eexists _, _, _, _.
  split; [apply make_overlay_pdf_run|]. split; [apply make_overlay_pdf_run|].
  cbn [file_pages creation_date]. repeat split; intros H.
  - now inversion H.
  - now rewrite H.
Qed.

(** ** Output name *)

Lemma date_name_of_date (a b : datetime) :
  date_of a = date_of b -> date_name a = date_name b.
Proof. unfold date_of, date_name. intros H. inversion H. congruence. Qed.

(** The statement of the specification fails: on a machine set to UTC, 20:00 and 22:00
    of 1 January 2024 are the same local day, but the name is made from
    the date in Europe/Minsk and changes in between. *)
Lemma name_changes_within_local_day :
  let w1 := sample_world evening ivanov_petrova_doc in
  let w2 := sample_world late_evening ivanov_petrova_doc in
  date_of (fromtimestamp (time w1 0) (local_utcoffset w1)) = (2024, 1, 1)%Z /\
  date_of (fromtimestamp (time w2 0) (local_utcoffset w2)) = (2024, 1, 1)%Z /\
  output_filename_from_docx w1 (lit "list.docx") empty_store
  = Ok (lit "2024_01_01" ++ SUFFIX, {| heap := []; ticks := 1 |}) /\
  output_filename_from_docx w2 (lit "list.docx") empty_store
  = Ok (lit "2024_01_02" ++ SUFFIX, {| heap := []; ticks := 1 |}).
Proof. repeat split. Qed.

(** C9, as the program has it. At a given reading of the clock the
    output name is the same for every input path, the stem computed from
    the path not being used; and the name is made from the year, month and
    day of that reading in the fixed zone Europe/Minsk, followed by the
    fixed suffix: two runs whose readings fall on the same day in that
    zone give the same name, whatever the paths and the time zone of the
    process. *)
Theorem output_name_by_zone_date :
  (forall (w : World) (st : store) (p1 p2 : str),
      output_filename_from_docx w p1 st = output_filename_from_docx w p2 st) /\
  (forall (w1 w2 : World) (st1 st2 : store) (p1 p2 : str) (tz1 tz2 : Z -> Z),
      zoneinfo w1 TZ_NAME = Some tz1 ->
      zoneinfo w2 TZ_NAME = Some tz2 ->
      date_of (fromtimestamp (time w1 (ticks st1)) tz1)
      = date_of (fromtimestamp (time w2 (ticks st2)) tz2) ->
      exists out_path st1' st2',
        output_filename_from_docx w1 p1 st1 = Ok (out_path, st1') /\
        output_filename_from_docx w2 p2 st2 = Ok (out_path, st2') /\
        out_path = date_name (fromtimestamp (time w1 (ticks st1)) tz1)).
Proof.
  split.
  - intros w st p1 p2. destruct (zoneinfo w TZ_NAME) as [tz|] eqn:Hz.
    + now rewrite !(output_filename_run w _ tz st Hz).
    + now rewrite !(output_filename_no_zone w _ st Hz).
  - intros w1 w2 st1 st2 p1 p2 tz1 tz2 H1 H2 Hd. eexists _, _, _.
    split; [apply (output_filename_run w1 p1 tz1 st1 H1)|].
    split; [|reflexivity].
    rewrite (output_filename_run w2 p2 tz2 st2 H2).
    now rewrite (date_name_of_date _ _ Hd).
Qed.

Lemma output_name_by_zone_date_witness :
  let w1 := sample_world evening ivanov_petrova_doc in
  let w2 := sample_world (evening - 7200) ivanov_petrova_doc in
  exists out_path st1' st2',
    output_filename_from_docx w1 (lit "list.docx") empty_store = Ok (out_path, st1') /\
    output_filename_from_docx w2 (lit "/home/user/other list.docx") empty_store
    = Ok (out_path, st2') /\
    out_path = lit "2024_01_01" ++ SUFFIX.
Proof.
  intros w1 w2.
  destruct (proj2 output_name_by_zone_date w1 w2 empty_store empty_store
              (lit "list.docx") (lit "/home/user/other list.docx")
              (fun _ => 10800%Z) (fun _ => 10800%Z) eq_refl eq_refl eq_refl)
    as (out_path & st1' & st2' & H1 & H2 & Hn).
  exists out_path, st1', st2'. split; [exact H1|]. split; [exact H2|].
  rewrite Hn. reflexivity.
Defined.

(* ================================================================== *)
(** * Part III: further properties of the program *)
(* ================================================================== *)

(** ** Normalized strings *)

Lemma isspace_replace_nbsp (c : char) :
  isspace (if (c =? NBSP)%N then SPACE else c) = isspace c.
Proof.
  destruct (N.eqb_spec c NBSP) as [->|]; reflexivity.
Qed.

Lemma replace_nbsp_nonspace (c : char) :
  isspace c = false -> (if (c =? NBSP)%N then SPACE else c) = c.
Proof.
  destruct (N.eqb_spec c NBSP) as [->|]; [discriminate | reflexivity].
Qed.

(** Replacing non-breaking spaces moves no word boundary and touches no
    word. *)
Lemma split_replace_nbsp (s : str) : split (replace_nbsp s) = split s.
Proof.
  unfold replace_nbsp. induction s as [|c r IH]; [reflexivity|].
  cbn [map split]. rewrite isspace_replace_nbsp.
  destruct (isspace c) eqn:E; [exact IH|].
  rewrite (replace_nbsp_nonspace c E).
  destruct r as [|d r0]; [reflexivity|].
  cbn [map] in IH |- *. rewrite isspace_replace_nbsp.
  destruct (isspace d); now rewrite IH.
Qed.

Lemma norm_as_words (s : str) : _norm s = join [SPACE] (split s).
Proof.
  unfold _norm. change (lit " ") with [SPACE].
  rewrite or_empty_id, split_strip, replace_single_char.
  change (map (fun c => if (c =? NBSP)%N then SPACE else c) s) with (replace_nbsp s).
  now rewrite split_replace_nbsp.
Qed.

(** The words of [split] hold no whitespace. *)
Lemma split_words_no_space (t : str) :
  Forall (fun w => forallb (fun c => negb (isspace c)) w = true) (split t).
Proof.
  induction t as [|c r IH]; [constructor|].
  cbn [split]. destruct (isspace c) eqn:E; [exact IH|].
  assert (Hc : forallb (fun c => negb (isspace c)) [c] = true) by (cbn; now rewrite E).
  destruct r as [|d r0]; [repeat constructor; exact Hc|].
  destruct (isspace d).
  - constructor; [exact Hc | exact IH].
  - destruct (split (d :: r0)) as [|w ws].
    + repeat constructor; exact Hc.
    + inversion IH; subst. constructor; [|assumption].
      cbn [forallb]. rewrite E. assumption.
Qed.

Lemma split_cons_cons (c d : char) (r : str) :
  isspace c = false ->
  split (c :: d :: r) =
  if isspace d then [c] :: split (d :: r)
  else match split (d :: r) with
       | w :: ws => (c :: w) :: ws
       | [] => [[c]]
       end.
Proof. intros E. cbn [split]. now rewrite E. Qed.

(** A word followed by a space splits off as it is. *)
Lemma split_word_space (w r : str) :
  w <> [] ->
  forallb (fun c => negb (isspace c)) w = true ->
  split (w ++ SPACE :: r) = w :: split r.
Proof.
  induction w as [|c w IH]; [contradiction|]. intros _ Hw.
  cbn [forallb] in Hw. apply andb_prop in Hw as [Hc Hw].
  apply negb_true_iff in Hc.
  destruct w as [|d w'].
  - cbn [app]. rewrite (split_cons_cons c SPACE r Hc), isspace_SPACE.
    now rewrite (split_cons_space SPACE r isspace_SPACE).
  - assert (Hd : isspace d = false).
    { cbn [forallb] in Hw. apply andb_prop in Hw as [Hd _]. now apply negb_true_iff. }
    specialize (IH ltac:(discriminate) Hw).
    change ((c :: d :: w') ++ SPACE :: r) with (c :: d :: (w' ++ SPACE :: r)).
    change ((d :: w') ++ SPACE :: r) with (d :: (w' ++ SPACE :: r)) in IH.
    now rewrite (split_cons_cons c d _ Hc), Hd, IH.
Qed.

Lemma split_word (w : str) :
  w <> [] ->
  forallb (fun c => negb (isspace c)) w = true ->
  split w = [w].
Proof.
  induction w as [|c w IH]; [contradiction|]. intros _ Hw.
  cbn [forallb] in Hw. apply andb_prop in Hw as [Hc Hw].
  apply negb_true_iff in Hc.
  destruct w as [|d w'].
  - cbn. now rewrite Hc.
  - assert (Hd : isspace d = false).
    { cbn [forallb] in Hw. apply andb_prop in Hw as [Hd _]. now apply negb_true_iff. }
    specialize (IH ltac:(discriminate) Hw).
    now rewrite (split_cons_cons c d _ Hc), Hd, IH.
Qed.

(** Splitting undoes joining with single spaces. *)
Lemma split_join (ws : list str) :
  Forall (fun w => w <> []) ws ->
  Forall (fun w => forallb (fun c => negb (isspace c)) w = true) ws ->
  split (join [SPACE] ws) = ws.
Proof.
  induction ws as [|w ws IH]; [reflexivity|].
  intros Hne Hns. inversion Hne; subst. inversion Hns; subst.
  cbn [join]. destruct ws as [|w' ws'].
  - now apply split_word.
  - cbn [app]. rewrite split_word_space by assumption.
    f_equal. now apply IH.
Qed.

Lemma split_nil_all_space (s : str) :
  is_empty (split s) = forallb isspace s.
Proof.
  induction s as [|c r IH]; [reflexivity|].
  cbn [split forallb]. destruct (isspace c); [exact IH|].
  destruct r as [|d r0]; [reflexivity|].
  destruct (isspace d); [reflexivity|].
  now destruct (split (d :: r0)).
Qed.

(** X1. Normalizing twice is normalizing once. *)
Theorem norm_idempotent (s : str) : _norm (_norm s) = _norm s.
Proof.
  rewrite (norm_as_words (_norm s)), (norm_as_words s).
  now rewrite split_join by (apply split_words_nonempty || apply split_words_no_space).
Qed.

(** X2. A string normalizes to the empty string exactly when it holds
    nothing but whitespace, non-breaking spaces included; and then only. *)
Theorem norm_empty_iff_blank (s : str) :
  is_empty (_norm s) = forallb isspace s.
Proof.
  rewrite norm_as_words, <- split_nil_all_space.
  destruct (split s) as [|w ws] eqn:S; [reflexivity|].
  destruct (join [SPACE] (w :: ws)) eqn:J; [|reflexivity].
  apply join_nil_inv in J; [discriminate|].
  rewrite <- S. apply split_words_nonempty.
Qed.

(** X3. Normalization keeps the words: the maximal runs of non-whitespace
    of the result are those of the input, in order. *)
Theorem norm_keeps_words (s : str) : split (_norm s) = split s.
Proof.
  rewrite norm_as_words.
  apply split_join; [apply split_words_nonempty | apply split_words_no_space].
Qed.

Lemma replace_nbsp_word (w : str) :
  forallb (fun c => negb (isspace c)) w = true -> replace_nbsp w = w.
Proof.
  unfold replace_nbsp. induction w as [|c w IH]; [reflexivity|].
  cbn [forallb map]. intros [Hc Hw]%andb_prop. apply negb_true_iff in Hc.
  now rewrite (replace_nbsp_nonspace c Hc), (IH Hw).
Qed.

Lemma replace_nbsp_join (ws : list str) :
  Forall (fun w => forallb (fun c => negb (isspace c)) w = true) ws ->
  replace_nbsp (join [SPACE] ws) = join [SPACE] ws.
Proof.
  induction ws as [|w ws IH]; [reflexivity|].
  intros H. inversion H as [|? ? Hw Hws]; subst.
  cbn [join]. destruct ws as [|w' ws']; [now apply replace_nbsp_word|].
  assert (Happ : forall a b, replace_nbsp (a ++ b) = replace_nbsp a ++ replace_nbsp b)
    by (intros a b; apply map_app).
  rewrite Happ, (replace_nbsp_word w Hw). f_equal.
  change (replace_nbsp ([SPACE] ++ join [SPACE] (w' :: ws')))
    with (SPACE :: replace_nbsp (join [SPACE] (w' :: ws'))).
  now rewrite (IH Hws).
Qed.

Lemma collapse_runs_word (w r : str) (b : bool) :
  w <> [] ->
  forallb (fun c => negb (isspace c)) w = true ->
  collapse_runs b (w ++ r) = w ++ collapse_runs false r.
Proof.
  revert b. induction w as [|c w IH]; [contradiction|]. intros b _ Hw.
  cbn [forallb] in Hw. apply andb_prop in Hw as [Hc Hw]. apply negb_true_iff in Hc.
  cbn [app collapse_runs]. rewrite Hc. f_equal.
  destruct w as [|d w']; [reflexivity|].
  now apply IH.
Qed.

Lemma collapse_runs_join (ws : list str) (b : bool) :
  Forall (fun w => w <> []) ws ->
  Forall (fun w => forallb (fun c => negb (isspace c)) w = true) ws ->
  collapse_runs b (join [SPACE] ws) = join [SPACE] ws.
Proof.
  revert b. induction ws as [|w ws IH]; [reflexivity|].
  intros b Hne Hns. inversion Hne; subst. inversion Hns; subst.
  cbn [join]. destruct ws as [|w' ws'].
  - rewrite <- (app_nil_r w) at 1. rewrite collapse_runs_word by assumption.
    cbn. now rewrite app_nil_r.
  - rewrite collapse_runs_word by assumption. f_equal.
    cbn [app collapse_runs]. rewrite isspace_SPACE. f_equal.
    now apply IH.
Qed.

Lemma lstrip_join (ws : list str) :
  Forall (fun w => w <> []) ws ->
  Forall (fun w => forallb (fun c => negb (isspace c)) w = true) ws ->
  lstrip (join [SPACE] ws) = join [SPACE] ws.
Proof.
  intros Hne Hns. destruct ws as [|w ws]; [reflexivity|].
  inversion Hne as [|? ? Hw _]; subst. inversion Hns as [|? ? Hs _]; subst.
  destruct w as [|c w]; [contradiction|].
  cbn [forallb] in Hs. apply andb_prop in Hs as [Hc _]. apply negb_true_iff in Hc.
  rewrite join_cons_cons. cbn [lstrip]. now rewrite Hc.
Qed.

(** X4. A normalized string is a fixed point of each pass of the
    normalization: it holds no non-breaking space, its whitespace is single
    ASCII spaces only, and it neither starts nor ends with whitespace. *)
Theorem norm_is_normal_form (s : str) :
  replace_nbsp (_norm s) = _norm s /\
  collapse_runs false (_norm s) = _norm s /\
  strip (_norm s) = _norm s.
Proof.
  rewrite norm_as_words.
  pose proof (split_words_nonempty s) as Hne.
  pose proof (split_words_no_space s) as Hns.
  split; [now apply replace_nbsp_join|].
  split; [now apply collapse_runs_join|].
  unfold strip. rewrite lstrip_join by assumption.
  rewrite <- (collapse_runs_join (split s) true Hne Hns) at 1.
  rewrite (proj1 (rstrip_collapse_runs _)).
  now rewrite split_join.
Qed.

(** ** Cells and their text *)

Lemma contribution_all_cells (child : xml) :
  forallb (has_tag (w_tag "tc")) (cell_contribution child) = true.
Proof.
  destruct child as [t kids | s |]; [|reflexivity..].
  cbn [cell_contribution].
  destruct (String.eqb t (w_tag "tc")) eqn:E.
  - cbn [forallb has_tag]. now rewrite E.
  - destruct (String.eqb t (w_tag "sdt")); [|reflexivity].
    induction kids as [|k kids IH]; [reflexivity|].
    cbn [flat_map]. rewrite forallb_app, IH, andb_true_r.
    destruct (has_tag (w_tag "sdtContent") k); [|reflexivity].
    apply forallb_forall. intros x Hx. now apply filter_In in Hx.
Qed.

(** X6. Whatever the row holds, every node [_tcs_from_row_xml] returns is
    a table cell element. *)
Theorem tcs_are_cells (tr : xml) :
  forallb (has_tag (w_tag "tc")) (_tcs_from_row_xml tr) = true.
Proof.
  rewrite tcs_from_row_flat_map.
  induction (children tr) as [|child kids IH]; [reflexivity|].
  cbn [flat_map]. now rewrite forallb_app, contribution_all_cells, IH.
Qed.

(** X5. The text of a cell is the concatenation, without separators, of
    the texts of its children in order; text that is not inside a [w:t]
    element is not extracted, the text of a [w:t] child is, and an element
    that is not a [w:t] passes on the text found inside it. *)
Theorem text_from_tc_structure :
  (forall (t : string) (kids1 kids2 : list xml),
      _text_from_tc (Elem t (kids1 ++ kids2))
      = _text_from_tc (Elem t kids1) ++ _text_from_tc (Elem t kids2)) /\
  (forall (t : string) (s : str), _text_from_tc (Elem t [Text s]) = []) /\
  (forall (t : string) (s : str), _text_from_tc (Elem t [w_t s]) = s) /\
  (forall (t t' : string) (kids : list xml),
      t' <> w_tag "t" ->
      _text_from_tc (Elem t [Elem t' kids]) = _text_from_tc (Elem t' kids)).
Proof.
  split; [|split; [|split]].
  - intros t kids1 kids2. unfold _text_from_tc. cbn [children].
    now rewrite flat_map_app, concat_app.
  - reflexivity.
  - intros t s. unfold _text_from_tc, w_t. cbn [children flat_map text_nodes].
    rewrite String.eqb_refl. cbn. now rewrite !app_nil_r.
  - intros t t' kids Ht. unfold _text_from_tc. cbn [children flat_map text_nodes].
    rewrite (proj2 (String.eqb_neq t' (w_tag "t")) Ht). now rewrite app_nil_r.
Qed.

Lemma text_from_tc_structure_witness :
  _text_from_tc (w_tc [Elem (w_tag "p") [Elem (w_tag "r") [w_t (lit "Iva")];
                                        Elem (w_tag "r") [w_t (lit "nov")]]])
  = _text_from_tc (Elem (w_tag "p") [Elem (w_tag "r") [w_t (lit "Iva")];
                                      Elem (w_tag "r") [w_t (lit "nov")]]).
Proof.
  apply (proj2 (proj2 (proj2 text_from_tc_structure))). discriminate.
Defined.

(** ** The extraction as a whole *)

Lemma norm_norm (s : str) : _norm (_norm s) = _norm s.
Proof.
  rewrite (norm_as_words (_norm s)), (norm_as_words s).
  now rewrite split_join by (apply split_words_nonempty || apply split_words_no_space).
Qed.

Lemma is_empty_false {A} (l : list A) : is_empty l = false -> l <> [].
Proof. destruct l; [discriminate | discriminate]. Qed.

Lemma row_record_well_formed (tr : xml) (r : RowData) :
  row_record tr = Some r -> well_formed_record r.
Proof.
  unfold row_record, fully_populated, row_fields.
  destruct (_tcs_from_row_xml tr) as [|c0 [|c1 [|c2 rest]]]; try discriminate.
  destruct (is_empty (_norm (_text_from_tc c0))) eqn:E0; [discriminate|].
  destruct (is_empty (_norm (_text_from_tc c1))) eqn:E1; [discriminate|].
  destruct (is_empty (_norm (_text_from_tc c2))) eqn:E2; [discriminate|].
  cbn. intros H. inversion H; subst. unfold well_formed_record. cbn.
  rewrite !norm_norm. apply is_empty_false in E0, E1, E2. repeat split; assumption.
Qed.

Lemma omap_row_record_well_formed (trs : list xml) :
  Forall well_formed_record (omap row_record trs) /\
  length (omap row_record trs) <= length trs.
Proof.
  induction trs as [|tr trs [IHf IHl]]; [split; [constructor | reflexivity]|].
  cbn [omap list_omap length].
  destruct (row_record tr) as [r|] eqn:R.
  - split; [|cbn [length]; lia].
    constructor; [now apply (row_record_well_formed tr) | exact IHf].
  - split; [exact IHf | lia].
Qed.

Lemma blank_rows_no_record (trs : list xml) :
  forallb blank_row trs = true ->
  forallb row_passes trs = true /\ omap row_record trs = [].
Proof.
  induction trs as [|tr trs IH]; [auto|].
  cbn [forallb omap list_omap]. intros [Hb Hl]%andb_prop.
  destruct (IH Hl) as [Hp Ho]. unfold row_passes at 1. rewrite Hb, Hp, Ho.
  split; [reflexivity|].
  unfold row_record, fully_populated. unfold blank_row in Hb.
  destruct (row_fields tr) as [[[n g] d]|]; [|reflexivity].
  now destruct (is_empty n), (is_empty g), (is_empty d).
Qed.

(** X7. The extraction succeeds exactly on the documents that have a
    table, whose data rows are each blank or fully populated, and of which
    at least one is populated; the records are then those of the populated
    rows in row order. *)
Theorem read_rows_ok_iff (doc : Document) (rs : list RowData) :
  read_rows doc = Ok rs <->
  tables doc <> [] /\
  forallb row_passes (data_rows doc) = true /\
  rs = omap row_record (data_rows doc) /\
  rs <> [].
Proof.
  split.
  - intros H. destruct (read_rows_ok_inv doc rs H) as (Hp & Hr & Hne).
    repeat split; auto.
    intros Ht. unfold read_rows in H. rewrite Ht in H. discriminate.
  - intros (Ht & Hp & -> & Hne). now apply read_rows_valid.
Qed.

Lemma read_rows_ok_iff_witness :
  read_rows ivanov_petrova_doc = Ok [ivanov; petrova].
Proof.
  apply (proj2 (read_rows_ok_iff ivanov_petrova_doc [ivanov; petrova])).
  split; [discriminate|]. split; [reflexivity|]. split; [reflexivity | discriminate].
Defined.

(** X8. Every record of a successful extraction has a non-empty name,
    greeting and salutation word, each already in normalized form, and
    there are at least one record and at most as many as data rows. *)
Theorem records_well_formed (doc : Document) (rs : list RowData) :
  read_rows doc = Ok rs ->
  Forall well_formed_record rs /\
  1 <= length rs <= length (data_rows doc).
Proof.
  intros H. destruct (read_rows_ok_inv doc rs H) as (_ & -> & Hne).
  destruct (omap_row_record_well_formed (data_rows doc)) as [Hf Hl].
  split; [exact Hf|]. split; [|exact Hl].
  destruct (omap row_record (data_rows doc)); [contradiction | cbn; lia].
Qed.

Lemma records_well_formed_witness :
  Forall well_formed_record [ivanov; petrova] /\
  1 <= length [ivanov; petrova] <= length (data_rows ivanov_petrova_doc).
Proof.
  apply (records_well_formed ivanov_petrova_doc [ivanov; petrova]). reflexivity.
Defined.

(** X9. A document without table is refused for that; a document whose
    selected table has no row, only the header row, or only blank data
    rows is refused for holding no filled row. *)
Theorem read_rows_edge_inputs :
  (forall doc : Document,
      tables doc = [] -> read_rows doc = Raise (ValueError NoTableInDocx)) /\
  (forall (doc : Document) (table : Table) (others : list Table),
      tables doc = table :: others ->
      forallb blank_row (drop 1 (rows table)) = true ->
      read_rows doc = Raise (ValueError NoFilledRow)).
Proof.
  split.
  - intros doc H. unfold read_rows. now rewrite H.
  - intros doc table others Ht Hb.
    rewrite (read_rows_table doc table) by now rewrite Ht.
    destruct (blank_rows_no_record _ Hb) as [Hp Ho].
    pose proof (rows_loop_passes (drop 1 (rows table)) [] 1 [] Hp) as L.
    rewrite app_nil_r in L. rewrite L, Ho. reflexivity.
Qed.

Lemma read_rows_edge_inputs_witness :
  read_rows {| tables := [] |} = Raise (ValueError NoTableInDocx) /\
  read_rows (doc_of []) = Raise (ValueError NoFilledRow) /\
  read_rows (doc_of [header_row]) = Raise (ValueError NoFilledRow) /\
  read_rows (doc_of [header_row; row_of [lit " "; []; [NBSP]; lit "x"]])
  = Raise (ValueError NoFilledRow).
Proof.
  split; [apply (proj1 read_rows_edge_inputs); reflexivity|].
  split; [|split];
    eapply (proj2 read_rows_edge_inputs); reflexivity.
Defined.

Lemma row_fields_first_three (c0 c1 c2 : xml) (extra : list xml) :
  forallb (has_tag (w_tag "tc")) [c0; c1; c2] = true ->
  row_fields (w_tr (c0 :: c1 :: c2 :: extra)) = row_fields (w_tr [c0; c1; c2]).
Proof.
  intros H. unfold row_fields. rewrite !tcs_from_row_flat_map.
  cbn [w_tr children].
  change (c0 :: c1 :: c2 :: extra) with ([c0; c1; c2] ++ extra).
  rewrite flat_map_app, (flat_map_contribution_cells [c0; c1; c2] H).
  reflexivity.
Qed.

(** X10. The extraction never reads the header row, the tables after the
    selected one, or what follows the third cell of a row: documents that
    agree on the data rows of their first table give the same result, and
    a row gives the same result as the row cut after its third cell. *)
Theorem read_rows_reads_three_columns_of_data_rows :
  (forall (t1 t2 : Table) (others1 others2 : list Table),
      drop 1 (rows t1) = drop 1 (rows t2) ->
      read_rows {| tables := t1 :: others1 |}
      = read_rows {| tables := t2 :: others2 |}) /\
  (forall (i : nat) (c0 c1 c2 : xml) (extra : list xml),
      forallb (has_tag (w_tag "tc")) [c0; c1; c2] = true ->
      read_row i (w_tr (c0 :: c1 :: c2 :: extra)) = read_row i (w_tr [c0; c1; c2])).
Proof.
  split.
  - intros t1 t2 others1 others2 H.
    rewrite (read_rows_table {| tables := t1 :: others1 |} t1) by reflexivity.
    rewrite (read_rows_table {| tables := t2 :: others2 |} t2) by reflexivity.
    now rewrite H.
  - intros i c0 c1 c2 extra H.
    now rewrite !read_row_fields, (row_fields_first_three c0 c1 c2 extra H).
Qed.

Lemma read_rows_reads_three_columns_of_data_rows_witness :
  read_rows {| tables := [ {| rows := [row_of [lit "anything"];
                                       row_of [lit "Ivanov I.I."; lit "Birthday"; lit "Dear"]] |};
                           {| rows := [] |} ] |}
  = read_rows (doc_of [header_row;
                       row_of [lit "Ivanov I.I."; lit "Birthday"; lit "Dear"]]) /\
  read_row 1 (row_of [lit "Ivanov I.I."; lit "Birthday"; lit "Dear"; lit "note"])
  = read_row 1 (row_of [lit "Ivanov I.I."; lit "Birthday"; lit "Dear"]).
Proof.
  split.
  - apply (proj1 read_rows_reads_three_columns_of_data_rows). reflexivity.
  - apply (proj2 read_rows_reads_three_columns_of_data_rows 1
             (text_cell (lit "Ivanov I.I.")) (text_cell (lit "Birthday"))
             (text_cell (lit "Dear")) [text_cell (lit "note")]).
    reflexivity.
Defined.

(** ** The outcome of [generate_pdf] *)

Lemma generate_pdf_no_template (w : World) (docx_path : str) (st : store) :
  template_pdf w = None ->
  generate_pdf w docx_path st = Raise (FileNotFoundError NoTemplate).
Proof. intros H. unfold generate_pdf. now rewrite H. Qed.

Lemma generate_pdf_no_font (w : World) (docx_path : str) (st : store) (tpl : PdfFile) :
  template_pdf w = Some tpl ->
  font_ttf w = false ->
  generate_pdf w docx_path st = Raise (FileNotFoundError NoFont).
Proof.
  intros Ht Hf. unfold generate_pdf. rewrite Ht, Hf.
  now rewrite bool_decide_eq_true_2 by eauto.
Qed.

Lemma generate_pdf_after_checks (w : World) (docx_path : str) (st : store)
    (tpl : PdfFile) :
  template_pdf w = Some tpl ->
  font_ttf w = true ->
  generate_pdf w docx_path st =
  (rows ← lift (read_rows_from_docx w docx_path);
   _ ← lift (registerFont w);
   '(template_bytes, (page_width, page_height), writer) ← start_writer w;
   writer ← for_rows w template_bytes page_width page_height rows writer;
   out_path ← output_filename_from_docx w docx_path;
   written ← PdfWriter_write writer;
   mret (out_path, written)) st.
Proof.
  intros Ht Hf. unfold generate_pdf. rewrite Ht, Hf.
  now rewrite bool_decide_eq_true_2 by eauto.
Qed.

Lemma generate_pdf_bad_rows (w : World) (docx_path : str) (st : store)
    (tpl : PdfFile) (e : exn) :
  template_pdf w = Some tpl ->
  font_ttf w = true ->
  read_rows_from_docx w docx_path = Raise e ->
  generate_pdf w docx_path st = Raise e.
Proof.
  intros Ht Hf Hr. rewrite (generate_pdf_after_checks w docx_path st tpl Ht Hf).
  apply bind_raise. unfold lift. now rewrite Hr.
Qed.

Lemma start_writer_short (w : World) (st : store) (tpl : PdfFile) :
  template_pdf w = Some tpl ->
  length (file_pages tpl) < 2 ->
  start_writer w st = Raise (ValueError TemplateTooShort).
Proof.
  intros Ht Hl. unfold start_writer.
  assert (Hread : read_template w = Ok tpl) by (unfold read_template; now rewrite Ht).
  rewrite (bind_run _ _ _ _ _ (lift_ok_run _ _ st Hread)).
  rewrite (bind_run _ _ _ _ _ (PdfReader_open_run _ _)).
  cbn [reader_pages]. rewrite length_seq.
  now destruct (Nat.ltb_spec (length (file_pages tpl)) 2); [|lia].
Qed.

Lemma registerFont_ok (w : World) : font_loads w = true -> registerFont w = Ok tt.
Proof. intros H. unfold registerFont. now rewrite H. Qed.

Lemma generate_pdf_bad_font (w : World) (docx_path : str) (st : store)
    (tpl : PdfFile) (rows : list RowData) :
  template_pdf w = Some tpl ->
  font_ttf w = true ->
  read_rows_from_docx w docx_path = Ok rows ->
  font_loads w = false ->
  generate_pdf w docx_path st = Raise TTFError.
Proof.
  intros Ht Hf Hr Hl. rewrite (generate_pdf_after_checks w docx_path st tpl Ht Hf).
  rewrite (bind_run _ _ _ _ _ (lift_ok_run _ _ st Hr)).
  apply bind_raise. unfold lift, registerFont. now rewrite Hl.
Qed.

Lemma generate_pdf_short_template (w : World) (docx_path : str) (st : store)
    (tpl : PdfFile) (rows : list RowData) :
  template_pdf w = Some tpl ->
  font_ttf w = true ->
  read_rows_from_docx w docx_path = Ok rows ->
  font_loads w = true ->
  length (file_pages tpl) < 2 ->
  generate_pdf w docx_path st = Raise (ValueError TemplateTooShort).
Proof.
  intros Ht Hf Hr Hg Hl. rewrite (generate_pdf_after_checks w docx_path st tpl Ht Hf).
  rewrite (bind_run _ _ _ _ _ (lift_ok_run _ _ st Hr)).
  rewrite (bind_run _ _ _ _ _ (lift_ok_run _ _ st (registerFont_ok w Hg))).
  apply bind_raise. now apply (start_writer_short w st tpl).
Qed.

(** With the inputs in order up to the pages, what is left of the run is
    the naming and the writing, from a store that extends the first one. *)
Lemma generate_pdf_to_naming (w : World) (docx_path : str) (st : store)
    (tpl : PdfFile) (cover base : PageObject) (rows : list RowData) :
  template_pdf w = Some tpl ->
  font_ttf w = true ->
  read_rows_from_docx w docx_path = Ok rows ->
  font_loads w = true ->
  file_pages tpl !! 0 = Some cover ->
  file_pages tpl !! 1 = Some base ->
  exists writer st1 ext,
    generate_pdf w docx_path st =
    (out_path ← output_filename_from_docx w docx_path;
     written ← PdfWriter_write writer;
     mret (out_path, written)) st1 /\
    heap st1 = heap st ++ ext /\
    ticks st1 = ticks st + length rows /\
    pages_at (writer_pages writer) st1
    = map Some (cover :: map (page_for base) rows).
Proof.
  intros Ht Hf Hr Hg Hcover Hbase.
  destruct (composed_run w tpl cover base rows st Ht Hcover Hbase)
    as (writer & st1 & ext & Hc & _ & Hheap & Hticks & Hat).
  pose proof (start_writer_run w tpl cover base st Ht Hcover Hbase) as Hstart.
  cbv zeta in Hstart.
  unfold composed in Hc. rewrite (bind_run _ _ _ _ _ Hstart) in Hc.
  cbn beta iota in Hc. unfold mbind at 1, M_bind at 1 in Hc.
  destruct (for_rows w tpl _ _ rows _ _) as [[wr s]|e] eqn:Hfor; [|discriminate].
  inversion Hc; subst wr s. clear Hc.
  exists writer, st1, ext.
  split; [|split; [exact Hheap|split; [exact Hticks|]]].
  - rewrite (generate_pdf_after_checks w docx_path st tpl Ht Hf).
    rewrite (bind_run _ _ _ _ _ (lift_ok_run _ _ st Hr)).
    rewrite (bind_run _ _ _ _ _ (lift_ok_run _ _ st (registerFont_ok w Hg))).
    rewrite (bind_run _ _ _ _ _ Hstart). cbn beta iota.
    now rewrite (bind_run _ _ _ _ _ Hfor).
  - cbn [map]. rewrite map_map. exact Hat.
Qed.

Lemma generate_pdf_no_zone (w : World) (docx_path : str) (st : store)
    (tpl : PdfFile) (rows : list RowData) :
  template_pdf w = Some tpl ->
  font_ttf w = true ->
  read_rows_from_docx w docx_path = Ok rows ->
  font_loads w = true ->
  2 <= length (file_pages tpl) ->
  zoneinfo w TZ_NAME = None ->
  generate_pdf w docx_path st = Raise ZoneInfoNotFoundError.
Proof.
  intros Ht Hf Hr Hg Hl Hz.
  destruct (file_pages tpl) as [|cover [|base rest]] eqn:Hp; cbn in Hl; try lia.
  destruct (generate_pdf_to_naming w docx_path st tpl cover base rows Ht Hf Hr Hg)
    as (writer & st1 & ext & Hgen & _); [now rewrite Hp..|].
  rewrite Hgen. apply bind_raise. now apply output_filename_no_zone.
Qed.

(** The successful run, in full. *)
Lemma generate_pdf_run (w : World) (docx_path : str) (st : store)
    (tpl : PdfFile) (cover base : PageObject) (rows : list RowData) (tz : Z -> Z) :
  template_pdf w = Some tpl ->
  font_ttf w = true ->
  read_rows_from_docx w docx_path = Ok rows ->
  font_loads w = true ->
  file_pages tpl !! 0 = Some cover ->
  file_pages tpl !! 1 = Some base ->
  zoneinfo w TZ_NAME = Some tz ->
  exists st',
    generate_pdf w docx_path st
    = Ok ((date_name (fromtimestamp (time w (ticks st + length rows)) tz),
           {| creation_date := None;
              file_pages := cover :: map (page_for base) rows |}), st') /\
    ticks st' = ticks st + length rows + 1 /\
    exists ext, heap st' = heap st ++ ext.
Proof.
  intros Ht Hf Hr Hg Hcover Hbase Hz.
  destruct (generate_pdf_to_naming w docx_path st tpl cover base rows Ht Hf Hr Hg
              Hcover Hbase)
    as (writer & st1 & ext & Hgen & Hheap & Hticks & Hat).
  exists {| heap := heap st1; ticks := S (ticks st1) |}.
  split; [|split; [cbn; lia | exists ext; exact Hheap]].
  rewrite Hgen.
  rewrite (bind_run _ _ _ _ _ (output_filename_run w docx_path tz st1 Hz)).
  unfold PdfWriter_write.
  assert (Hat' : pages_at (writer_pages writer) {| heap := heap st1; ticks := S (ticks st1) |}
                 = map Some (cover :: map (page_for base) rows)) by exact Hat.
  rewrite (bind_run _ _ _ _ _
             (bind_run _ _ _ _ _ (deref_all_run _ _ _ Hat'))).
  rewrite Hticks. reflexivity.
Qed.

Lemma generate_pdf_ok_inv (w : World) (docx_path : str) (st st' : store)
    (r : str * PdfFile) :
  generate_pdf w docx_path st = Ok (r, st') ->
  exists tpl rows cover base tz,
    template_pdf w = Some tpl /\
    font_ttf w = true /\
    read_rows_from_docx w docx_path = Ok rows /\
    font_loads w = true /\
    file_pages tpl !! 0 = Some cover /\
    file_pages tpl !! 1 = Some base /\
    zoneinfo w TZ_NAME = Some tz.
Proof.
  intros H.
  destruct (template_pdf w) as [tpl|] eqn:Ht;
    [|rewrite (generate_pdf_no_template w docx_path st Ht) in H; discriminate].
  destruct (font_ttf w) eqn:Hf;
    [|rewrite (generate_pdf_no_font w docx_path st tpl Ht Hf) in H; discriminate].
  destruct (read_rows_from_docx w docx_path) as [rows|e] eqn:Hr;
    [|rewrite (generate_pdf_bad_rows w docx_path st tpl e Ht Hf Hr) in H; discriminate].
  destruct (font_loads w) eqn:Hg;
    [|rewrite (generate_pdf_bad_font w docx_path st tpl rows Ht Hf Hr Hg) in H;
      discriminate].
  destruct (file_pages tpl) as [|cover [|base rest]] eqn:Hp.
  1,2: rewrite (generate_pdf_short_template w docx_path st tpl rows Ht Hf Hr Hg) in H
      by (rewrite Hp; cbn; lia); discriminate.
  destruct (zoneinfo w TZ_NAME) as [tz|] eqn:Hz.
  - exists tpl, rows, cover, base, tz. rewrite Hp. auto 10.
  - rewrite (generate_pdf_no_zone w docx_path st tpl rows Ht Hf Hr Hg) in H
      by (rewrite ?Hp; cbn; auto; lia).
    discriminate.
Qed.



(** X12. The failures of [generate_pdf] come in a fixed order: a missing
    template is reported first, then a missing font file, then whatever
    the extraction raises, then a font file that cannot be loaded, then a
    template of fewer than two pages, and last, after all pages are
    composed, an unknown zone; in each case nothing is written. *)
Theorem generate_pdf_failure_order (w : World) (docx_path : str) (st : store) :
  (template_pdf w = None ->
   generate_pdf w docx_path st = Raise (FileNotFoundError NoTemplate)) /\
  (forall tpl,
      template_pdf w = Some tpl ->
      (font_ttf w = false ->
       generate_pdf w docx_path st = Raise (FileNotFoundError NoFont)) /\
      (font_ttf w = true ->
       (forall e, read_rows_from_docx w docx_path = Raise e ->
                  generate_pdf w docx_path st = Raise e) /\
       (forall rows,
           read_rows_from_docx w docx_path = Ok rows ->
           (font_loads w = false ->
            generate_pdf w docx_path st = Raise TTFError) /\
           (font_loads w = true ->
            (length (file_pages tpl) < 2 ->
             generate_pdf w docx_path st = Raise (ValueError TemplateTooShort)) /\
            (2 <= length (file_pages tpl) ->
             zoneinfo w TZ_NAME = None ->
             generate_pdf w docx_path st = Raise ZoneInfoNotFoundError))))).
Proof.
  split; [apply generate_pdf_no_template|].
  intros tpl Ht. split; [now apply (generate_pdf_no_font w docx_path st tpl)|].
  intros Hf. split; [intros e; now apply (generate_pdf_bad_rows w docx_path st tpl)|].
  intros rows Hr. split.
  - now apply (generate_pdf_bad_font w docx_path st tpl rows).
  - intros Hg. split.
    + now apply (generate_pdf_short_template w docx_path st tpl rows).
    + now apply (generate_pdf_no_zone w docx_path st tpl rows).
Qed.

Lemma generate_pdf_failure_order_witness :
  let p := lit "list.docx" in
  generate_pdf (world_with None None None false) p empty_store
  = Raise (FileNotFoundError NoTemplate) /\
  generate_pdf (world_with (Some short_template) None None false) p empty_store
  = Raise (FileNotFoundError NoFont) /\
  generate_pdf (world_with (Some short_template) (Some false) (Some two_short_rows_doc)
                  false) p empty_store
  = Raise (ValueError (TooFewCells 2)) /\
  generate_pdf (world_with (Some short_template) (Some false) (Some ivanov_petrova_doc)
                  false) p empty_store
  = Raise TTFError /\
  generate_pdf (world_with (Some short_template) (Some true) (Some ivanov_petrova_doc)
                  false) p empty_store
  = Raise (ValueError TemplateTooShort) /\
  generate_pdf (world_with (Some sample_template) (Some true) (Some ivanov_petrova_doc)
                  false) p empty_store
  = Raise ZoneInfoNotFoundError.
Proof.
  intros p.
  pose (w1 := world_with None None None false).
  pose (w2 := world_with (Some short_template) None None false).
  pose (w3 := world_with (Some short_template) (Some false) (Some two_short_rows_doc) false).
  pose (w4 := world_with (Some short_template) (Some false) (Some ivanov_petrova_doc) false).
  pose (w5 := world_with (Some short_template) (Some true) (Some ivanov_petrova_doc) false).
  pose (w6 := world_with (Some sample_template) (Some true) (Some ivanov_petrova_doc) false).
  split; [exact (proj1 (generate_pdf_failure_order w1 p empty_store) eq_refl)|].
  split; [exact (proj1 (proj2 (generate_pdf_failure_order w2 p empty_store)
                          short_template eq_refl) eq_refl)|].
  split; [exact (proj1 (proj2 (proj2 (generate_pdf_failure_order w3 p empty_store)
                                 short_template eq_refl) eq_refl)
                   (ValueError (TooFewCells 2)) eq_refl)|].
  split; [exact (proj1 (proj2 (proj2 (proj2 (generate_pdf_failure_order w4 p empty_store)
                                        short_template eq_refl) eq_refl)
                                 [ivanov; petrova] eq_refl) eq_refl)|].
  split.
  - apply (proj1 (proj2 (proj2 (proj2 (proj2 (generate_pdf_failure_order w5 p empty_store)
                                         short_template eq_refl) eq_refl)
                                  [ivanov; petrova] eq_refl) eq_refl)).
    cbn. lia.
  - apply (proj2 (proj2 (proj2 (proj2 (proj2 (generate_pdf_failure_order w6 p empty_store)
                                         sample_template eq_refl) eq_refl)
                                  [ivanov; petrova] eq_refl) eq_refl));
      [cbn; lia | reflexivity].
Defined.

(** X13. The file written depends on the template and on the records
    only: two completed runs with the same template and the same
    extraction result write the same file, whatever the clock, the zone,
    the path and the page objects already in the store; the time stamps
    of the overlays do not reach the output. *)
Theorem written_file_independent_of_clock
    (w1 w2 : World) (p1 p2 : str) (st1 st2 st1' st2' : store)
    (name1 name2 : str) (f1 f2 : PdfFile) :
  generate_pdf w1 p1 st1 = Ok ((name1, f1), st1') ->
  generate_pdf w2 p2 st2 = Ok ((name2, f2), st2') ->
  template_pdf w1 = template_pdf w2 ->
  read_rows_from_docx w1 p1 = read_rows_from_docx w2 p2 ->
  f1 = f2.
Proof.
  intros H1 H2 Ht Hr.
  destruct (generate_pdf_ok_inv _ _ _ _ _ H1)
    as (tpl & rows & cover & base & tz1 & Ht1 & Hf1 & Hr1 & Hg1 & Hc & Hb & Hz1).
  destruct (generate_pdf_ok_inv _ _ _ _ _ H2)
    as (tpl' & rows' & cover' & base' & tz2 & Ht2 & Hf2 & Hr2 & Hg2 & Hc' & Hb' & Hz2).
  assert (tpl' = tpl) as -> by congruence.
  assert (rows' = rows) as -> by congruence.
  assert (cover' = cover) as -> by congruence.
  assert (base' = base) as -> by congruence.
  destruct (generate_pdf_run w1 p1 st1 tpl cover base rows tz1 Ht1 Hf1 Hr1 Hg1 Hc Hb Hz1)
    as (s1 & G1 & _).
  destruct (generate_pdf_run w2 p2 st2 tpl cover base rows tz2 Ht2 Hf2 Hr2 Hg2 Hc Hb Hz2)
    as (s2 & G2 & _).
  rewrite G1 in H1. rewrite G2 in H2.
  injection H1 as _ <- _. injection H2 as _ <- _. reflexivity.
Qed.

Lemma written_file_independent_of_clock_witness :
  exists name1 name2 f st1' st2',
    generate_pdf (sample_world evening ivanov_petrova_doc) (lit "list.docx") empty_store
    = Ok ((name1, f), st1') /\
    generate_pdf (sample_world late_evening ivanov_petrova_doc) (lit "other.docx")
      {| heap := [a_page 1%Q 1%Q []]; ticks := 7 |}
    = Ok ((name2, f), st2') /\
    name1 <> name2.
Proof.
  pose (r1 := generate_pdf (sample_world evening ivanov_petrova_doc) (lit "list.docx")
                empty_store).
  pose (r2 := generate_pdf (sample_world late_evening ivanov_petrova_doc) (lit "other.docx")
                {| heap := [a_page 1%Q 1%Q []]; ticks := 7 |}).
  vm_compute in r1. vm_compute in r2.
  assert (H1 : generate_pdf (sample_world evening ivanov_petrova_doc) (lit "list.docx")
                 empty_store = r1) by (vm_compute; reflexivity).
  assert (H2 : generate_pdf (sample_world late_evening ivanov_petrova_doc) (lit "other.docx")
                 {| heap := [a_page 1%Q 1%Q []]; ticks := 7 |} = r2)
    by (vm_compute; reflexivity).
  unfold r1 in H1. unfold r2 in H2. clear r1 r2.
  pose proof (written_file_independent_of_clock _ _ _ _ _ _ _ _ _ _ _ _ H1 H2
                eq_refl eq_refl) as Hf.
  eexists _, _, _, _, _.
  split; [exact H1|]. split; [exact H2|].
  discriminate.
Defined.

(** ** The labels of an overlay *)

Lemma draw_app (code1 code2 : list op) (m : machine) :
  draw (code1 ++ code2) m =
  match draw code1 m with
  | Some m' => draw code2 m'
  | None => None
  end.
Proof.
  revert m. induction code1 as [|o code1 IH]; intros m; [reflexivity|].
  cbn [app draw]. destruct (step o m); [apply IH | reflexivity].
Qed.

Lemma draw_text_block_code (c : Canvas) (text : str) (x y rotate_deg : float)
    (align : string) :
  _code (draw_text_block c text x y rotate_deg align)
  = _code c
    ++ [SaveState; Translate x y]
    ++ (if Qeq_bool rotate_deg 0%Q then [] else [Rotate rotate_deg])
    ++ [if String.eqb align "center"
        then DrawCentredString 0.0%Q 0.0%Q text
        else DrawString 0.0%Q 0.0%Q text;
        RestoreState].
Proof.
  unfold draw_text_block.
  destruct (Qeq_bool rotate_deg 0%Q), (String.eqb align "center"); cbn;
    now rewrite <- ?app_assoc.
Qed.

(** X14. [draw_text_block] leaves the graphics state of the canvas as it
    found it and draws exactly one text, in the coordinate system of the
    canvas moved to [(x, y)] and then turned by the angle (not turned when
    the angle is zero); the text is centred on the anchor only for the
    alignment ["center"], any other alignment starts it there. The page
    size, the pages shown and the time stamp of the canvas are kept. *)
Theorem draw_text_block_restores_state
    (c : Canvas) (text : str) (x y rotate_deg : float) (align : string)
    (m m' : machine) :
  draw (_code c) m = Some m' ->
  let c' := draw_text_block c text x y rotate_deg align in
  draw (_code c') m
  = Some {| current := current m';
            stack := stack m';
            drawn := drawn m'
                     ++ [(label_state (current m') x y rotate_deg,
                          if String.eqb align "center"
                          then DrawCentredString 0.0%Q 0.0%Q text
                          else DrawString 0.0%Q 0.0%Q text)] |} /\
  _pagesize c' = _pagesize c /\ _shown c' = _shown c /\ _timeStamp c' = _timeStamp c.
Proof.
  intros H c'. split.
  - unfold c'. rewrite draw_text_block_code, draw_app, H.
    unfold label_state.
    destruct (Qeq_bool rotate_deg 0%Q), (String.eqb align "center"); cbn;
      now rewrite <- ?app_assoc.
  - unfold c', draw_text_block.
    now destruct (Qeq_bool rotate_deg 0%Q), (String.eqb align "center").
Qed.

Lemma draw_text_block_restores_state_witness :
  let c := setFont FONT_NAME FONT_SIZE (Canvas_new 0 (200%Q, 400%Q)) in
  let m := {| current := {| transform := []; fill := None; font := None |};
              stack := []; drawn := [] |} in
  let g := {| transform := []; fill := None; font := Some (FONT_NAME, FONT_SIZE) |} in
  draw (_code (draw_text_block c (lit "Dear") 75.0%Q 480.0%Q 0%Q "right")) m
  = Some {| current := g; stack := [];
            drawn := [({| transform := [Translate 75.0%Q 480.0%Q];
                          fill := None; font := Some (FONT_NAME, FONT_SIZE) |},
                       DrawString 0.0%Q 0.0%Q (lit "Dear"))] |}.
Proof.
  intros c m g.
  exact (proj1 (draw_text_block_restores_state c (lit "Dear") 75.0%Q 480.0%Q 0%Q "right"
                  m {| current := g; stack := []; drawn := [] |} eq_refl)).
Defined.

(** X15. The one content stream of an overlay, drawn from any graphics
    state, sets the fill colour and the font, draws the salutation and the
    greeting, each in the coordinate system of the page moved to its own
    anchor and turned by its own angle, so that neither label is affected
    by the transformation of the other, and leaves the coordinate system
    and the stack of saved states as they were. *)
Theorem overlay_draws_two_independent_labels
    (w : World) (pw ph : float) (s g : str) (st : store) :
  exists overlay st' page code,
    make_overlay_pdf w pw ph s g st = Ok (overlay, st') /\
    file_pages overlay = [page] /\
    contents page = [code] /\
    forall m : machine,
      let inked := {| transform := transform (current m);
                      fill := Some ((220 / 255.0)%Q, (0 / 255.0)%Q, (0 / 255.0)%Q);
                      font := Some (FONT_NAME, FONT_SIZE) |} in
      draw code m
      = Some {| current := inked;
                stack := stack m;
                drawn := drawn m
                         ++ [(label_state inked 75.0%Q 480.0%Q 90.0%Q,
                              DrawString 0.0%Q 0.0%Q s);
                             (label_state inked 118.0%Q 500.0%Q 90.0%Q,
                              DrawString 0.0%Q 0.0%Q g)] |}.
Proof.
  eexists _, _, _, _. split; [apply make_overlay_pdf_run|].
  split; [reflexivity|]. split; [reflexivity|].
  intros m inked.
  assert (E : Qeq_bool 90.0%Q 0%Q = false) by reflexivity.
  unfold inked, label_state, overlay_page, label_ops, SALUTATION_POS, GREETING_POS.
  cbn [contents pos_x pos_y pos_rotate_deg pos_align]. rewrite !E.
  cbn. now rewrite <- !app_assoc.
Qed.

(** ** Output names *)

Lemma all_from_spec (f : Z -> bool) (n : nat) (z : Z) :
  all_from f z n = true ->
  forall x : Z, (z <= x < z + Z.of_nat n)%Z -> f x = true.
Proof.
  revert z. induction n as [|k IH]; intros z H x Hx; [lia|].
  cbn [all_from] in H. apply andb_prop in H as [Hz Hl].
  destruct (Z.eq_dec x z) as [->|Hne]; [exact Hz|].
  apply (IH (z + 1)%Z); [exact Hl | lia].
Qed.

Lemma format_d_4_reads_back (z : Z) :
  (0 <= z <= 9999)%Z ->
  length (format_d 4 z) = 4 /\ int_of_digits (format_d 4 z) = z.
Proof.
  intros Hz.
  assert (H : all_from (fun z => (length (format_d 4 z) =? 4)
                                  && (int_of_digits (format_d 4 z) =? z)%Z)
                0 (Z.to_nat 10000) = true) by (vm_compute; reflexivity).
  pose proof (all_from_spec _ _ _ H z ltac:(lia)) as Hc. cbn beta in Hc.
  apply andb_prop in Hc as [Hl Hv].
  split; [now apply Nat.eqb_eq | now apply Z.eqb_eq].
Qed.

Lemma format_d_2_reads_back (z : Z) :
  (0 <= z <= 99)%Z ->
  length (format_d 2 z) = 2 /\ int_of_digits (format_d 2 z) = z.
Proof.
  intros Hz.
  assert (H : all_from (fun z => (length (format_d 2 z) =? 2)
                                  && (int_of_digits (format_d 2 z) =? z)%Z)
                0 (Z.to_nat 100) = true) by (vm_compute; reflexivity).
  pose proof (all_from_spec _ _ _ H z ltac:(lia)) as Hc. cbn beta in Hc.
  apply andb_prop in Hc as [Hl Hv].
  split; [now apply Nat.eqb_eq | now apply Z.eqb_eq].
Qed.

Lemma date_name_reads_back (now : datetime) :
  (0 <= year now <= 9999)%Z ->
  (0 <= month now <= 99)%Z ->
  (0 <= day now <= 99)%Z ->
  length (date_name now) = 23 /\ date_of_name (date_name now) = date_of now.
Proof.
  intros Hy Hm Hd.
  destruct (format_d_4_reads_back _ Hy) as [Ly Vy].
  destruct (format_d_2_reads_back _ Hm) as [Lm Vm].
  destruct (format_d_2_reads_back _ Hd) as [Ld Vd].
  unfold date_name, date_of_name, date_of.
  set (Y := format_d 4 (year now)) in *.
  set (Mo := format_d 2 (month now)) in *.
  set (D := format_d 2 (day now)) in *.
  split.
  - rewrite !length_app, Ly, Lm, Ld. reflexivity.
  - assert (H1 : take 4 (Y ++ lit "_" ++ Mo ++ lit "_" ++ D ++ SUFFIX) = Y).
    { rewrite <- Ly. apply take_app_length. }
    assert (H2 : drop 5 (Y ++ lit "_" ++ Mo ++ lit "_" ++ D ++ SUFFIX)
                 = Mo ++ lit "_" ++ D ++ SUFFIX).
    { change (Y ++ lit "_" ++ Mo ++ lit "_" ++ D ++ SUFFIX)
        with (Y ++ [0x5F%N] ++ (Mo ++ lit "_" ++ D ++ SUFFIX)).
      rewrite app_assoc.
      replace 5 with (length (Y ++ [0x5F%N])) by (rewrite length_app, Ly; reflexivity).
      apply drop_app_length. }
    assert (H3 : drop 8 (Y ++ lit "_" ++ Mo ++ lit "_" ++ D ++ SUFFIX) = D ++ SUFFIX).
    { change 8 with (5 + 3). rewrite <- drop_drop, H2.
      change (Mo ++ lit "_" ++ D ++ SUFFIX) with (Mo ++ [0x5F%N] ++ (D ++ SUFFIX)).
      rewrite (app_assoc Mo).
      replace 3 with (length (Mo ++ [0x5F%N])) by (rewrite length_app, Lm; reflexivity).
      apply drop_app_length. }
    rewrite H1, H2, H3.
    replace (take 2 (Mo ++ lit "_" ++ D ++ SUFFIX)) with Mo
      by (rewrite <- Lm; symmetry; apply take_app_length).
    replace (take 2 (D ++ SUFFIX)) with D
      by (rewrite <- Ld; symmetry; apply take_app_length).
    now rewrite Vy, Vm, Vd.
Qed.

(** Month and day of a civil date, whatever the day number. *)
Lemma civil_from_days_ranges (days : Z) :
  (1 <= snd (fst (civil_from_days days)) <= 12)%Z /\
  (1 <= snd (civil_from_days days) <= 31)%Z.
Proof.
  pose (check := fun doe : Z =>
    (let yoe := (doe - doe / 1460 + doe / 36524 - doe / 146096) / 365 in
     let doy := doe - (365 * yoe + yoe / 4 - yoe / 100) in
     let mp := (5 * doy + 2) / 153 in
     let d := doy - (153 * mp + 2) / 5 + 1 in
     let m := if mp <? 10 then mp + 3 else mp - 9 in
     (1 <=? m) && (m <=? 12) && (1 <=? d) && (d <=? 31))%Z).
  assert (H : all_from check 0 (Z.to_nat 146097) = true) by (vm_compute; reflexivity).
  set (z := (days + 719468)%Z).
  set (doe := (z - z / 146097 * 146097)%Z).
  assert (Hdoe : (0 <= doe < 146097)%Z).
  { unfold doe. pose proof (Z.mod_pos_bound z 146097 ltac:(lia)) as Hb.
    rewrite Z.mod_eq in Hb by lia. lia. }
  pose proof (all_from_spec _ _ _ H doe ltac:(lia)) as Hc.
  unfold check in Hc. cbv zeta in Hc.
  apply andb_prop in Hc as [Hc Hd4]. apply andb_prop in Hc as [Hc Hd3].
  apply andb_prop in Hc as [Hd1 Hd2].
  apply Z.leb_le in Hd1, Hd2, Hd3, Hd4.
  unfold civil_from_days. cbv zeta. fold z. fold doe. cbn [fst snd].
  split; split; assumption.
Qed.

Lemma fromtimestamp_ranges (t : Z) (tz : Z -> Z) :
  (1 <= month (fromtimestamp t tz) <= 12)%Z /\
  (1 <= day (fromtimestamp t tz) <= 31)%Z.
Proof.
  unfold fromtimestamp. cbv zeta.
  pose proof (civil_from_days_ranges ((t + tz t) / 86400)) as H.
  destruct (civil_from_days ((t + tz t) / 86400)) as [[y m] d].
  exact H.
Qed.

(** X16. Whenever the year of the current date in the zone has at most
    four digits, as every year of a [datetime] has, the output name has
    exactly 23 code points and year, month and day read back from it as
    the date in the zone; so runs on different days never get the same
    name. *)
Theorem output_name_reads_back
    (w : World) (docx_path : str) (st st' : store) (tz : Z -> Z) (out_path : str) :
  zoneinfo w TZ_NAME = Some tz ->
  (0 <= year (fromtimestamp (time w (ticks st)) tz) <= 9999)%Z ->
  output_filename_from_docx w docx_path st = Ok (out_path, st') ->
  length out_path = 23 /\
  date_of_name out_path = date_of (fromtimestamp (time w (ticks st)) tz).
Proof.
  intros Hz Hy H. rewrite (output_filename_run w docx_path tz st Hz) in H.
  inversion H; subst.
  destruct (fromtimestamp_ranges (time w (ticks st)) tz) as [Hm Hd].
  apply date_name_reads_back; [exact Hy | lia | lia].
Qed.

Lemma output_name_reads_back_witness :
  exists out_path st',
    output_filename_from_docx (sample_world late_evening ivanov_petrova_doc)
      (lit "list.docx") empty_store = Ok (out_path, st') /\
    length out_path = 23 /\
    date_of_name out_path = (2024, 1, 2)%Z.
Proof.
  destruct (output_filename_from_docx (sample_world late_evening ivanov_petrova_doc)
              (lit "list.docx") empty_store) as [[out_path st']|e] eqn:H;
    [|discriminate H].
  exists out_path, st'. split; [reflexivity|].
  apply (output_name_reads_back (sample_world late_evening ivanov_petrova_doc)
           (lit "list.docx") empty_store st' (fun _ => 10800%Z) out_path eq_refl);
    [vm_compute; split; discriminate | exact H].
Defined.

(** ** The command line *)

Lemma find_single_cases (sh : Shell) :
  let docx_files := List.filter (is_docx_file sh) (listdir sh) in
  match docx_files with
  | [] => find_single_docx_in_cwd_strict sh = inl NoDocxHere
  | [f] => find_single_docx_in_cwd_strict sh = inr f
  | _ :: _ :: _ =>
      find_single_docx_in_cwd_strict sh = inl (SeveralDocxHere (sorted docx_files))
  end.
Proof.
  cbv zeta. unfold find_single_docx_in_cwd_strict.
  destruct (List.filter (is_docx_file sh) (listdir sh)) as [|f [|g rest]]; reflexivity.
Qed.

(** X17. When [find_single_docx_in_cwd_strict] returns a name, that name
    is an entry of the directory, is a file, ends in [.docx] once lowered,
    and is the only entry of that kind; it never picks one of several. *)
Theorem find_single_docx_is_the_only_one (sh : Shell) (f : str) :
  find_single_docx_in_cwd_strict sh = inr f ->
  In f (listdir sh) /\
  isfile sh f = true /\
  endswith (lit ".docx") (lower sh f) = true /\
  forall g, In g (listdir sh) -> is_docx_file sh g = true -> g = f.
Proof.
  intros H. pose proof (find_single_cases sh) as C. cbv zeta in C.
  destruct (List.filter (is_docx_file sh) (listdir sh)) as [|f0 [|g0 rest]] eqn:F;
    rewrite C in H; try discriminate.
  injection H as ->.
  assert (Hin : In f (List.filter (is_docx_file sh) (listdir sh))) by (rewrite F; now left).
  apply filter_In in Hin as [Hin Hd]. unfold is_docx_file in Hd.
  apply andb_prop in Hd as [He Hf].
  repeat split; auto.
  intros g Hg Hgd.
  assert (Hg' : In g (List.filter (is_docx_file sh) (listdir sh)))
    by (apply filter_In; auto).
  rewrite F in Hg'. destruct Hg' as [->|[]]. reflexivity.
Qed.

Lemma find_single_docx_is_the_only_one_witness :
  let sh := sample_shell [] [lit "notes.txt"; lit "List.DOCX"; lit "old.docx"] in
  find_single_docx_in_cwd_strict sh = inr (lit "List.DOCX") /\
  In (lit "List.DOCX") (listdir sh) /\
  isfile sh (lit "List.DOCX") = true /\
  endswith (lit ".docx") (lower sh (lit "List.DOCX")) = true /\
  forall g, In g (listdir sh) -> is_docx_file sh g = true -> g = lit "List.DOCX".
Proof.
  intros sh. split; [reflexivity|].
  apply (find_single_docx_is_the_only_one sh (lit "List.DOCX")). reflexivity.
Defined.

Lemma str_leb_total (a b : str) : str_leb a b = false -> str_leb b a = true.
Proof.
  revert b. induction a as [|x a IH]; intros [|y b]; cbn; try discriminate; auto.
  destruct (N.ltb_spec x y); [discriminate|].
  destruct (N.eqb_spec x y) as [->|Hne].
  - rewrite N.ltb_irrefl, N.eqb_refl. apply IH.
  - intros _. destruct (N.ltb_spec y x); [reflexivity | lia].
Qed.

Lemma insert_sorted_perm (s : str) (l : list str) :
  Permutation (insert_sorted s l) (s :: l).
Proof.
  induction l as [|t r IH]; [reflexivity|].
  cbn [insert_sorted]. destruct (str_leb s t); [reflexivity|].
  rewrite IH. apply perm_swap.
Qed.

Lemma insert_sorted_sorted (s : str) (l : list str) :
  Sorted (fun a b => str_leb a b = true) l ->
  Sorted (fun a b => str_leb a b = true) (insert_sorted s l).
Proof.
  induction l as [|t r IH]; intros H.
  - repeat constructor.
  - cbn [insert_sorted]. destruct (str_leb s t) eqn:E.
    + constructor; [exact H | constructor; exact E].
    + apply Sorted_inv in H as [Hr Ht]. constructor; [now apply IH|].
      apply str_leb_total in E.
      destruct r as [|u r']; cbn [insert_sorted]; [now constructor|].
      destruct (str_leb s u); constructor; [exact E | now inversion Ht].
Qed.

(** X18. With no candidate in the directory the search fails for want of
    a document, and with several it fails naming them all: the names
    reported are the candidates, each once, in ascending order. *)
Theorem find_single_docx_refuses (sh : Shell) :
  let docx_files := List.filter (is_docx_file sh) (listdir sh) in
  (length docx_files = 0 -> find_single_docx_in_cwd_strict sh = inl NoDocxHere) /\
  (2 <= length docx_files ->
   exists names,
     find_single_docx_in_cwd_strict sh = inl (SeveralDocxHere names) /\
     Permutation names docx_files /\
     Sorted (fun a b => str_leb a b = true) names).
Proof.
  cbv zeta. pose proof (find_single_cases sh) as C. cbv zeta in C.
  destruct (List.filter (is_docx_file sh) (listdir sh)) as [|f [|g rest]] eqn:F.
  - split; [auto | cbn; lia].
  - split; cbn; lia.
  - split; [cbn; lia|]. intros _. eexists. split; [exact C|].
    generalize (f :: g :: rest). intros l. split.
    + induction l as [|s l IH]; [reflexivity|].
      cbn [sorted fold_right]. fold (sorted l). now rewrite insert_sorted_perm, IH.
    + induction l as [|s l IH]; [constructor|].
      cbn [sorted fold_right]. now apply insert_sorted_sorted.
Qed.

Lemma find_single_docx_refuses_witness :
  find_single_docx_in_cwd_strict (sample_shell [] [lit "notes.txt"; lit "old.docx"])
  = inl NoDocxHere /\
  exists names,
    find_single_docx_in_cwd_strict (sample_shell [] [lit "b.docx"; lit "B.docx"; lit "a.DOCX"])
    = inl (SeveralDocxHere names) /\
    Permutation names [lit "b.docx"; lit "B.docx"; lit "a.DOCX"] /\
    Sorted (fun a b => str_leb a b = true) names.
Proof.
  split.
  - apply (proj1 (find_single_docx_refuses
                    (sample_shell [] [lit "notes.txt"; lit "old.docx"]))).
    reflexivity.
  - apply (proj2 (find_single_docx_refuses
                    (sample_shell [] [lit "b.docx"; lit "B.docx"; lit "a.DOCX"]))).
    apply Nat.leb_le. reflexivity.
Defined.

(** X19. [main] completes exactly when it settles on a document, which
    is the first argument when there is one and the path exists, or
    else, without argument, the only [.docx] file of the directory, and
    [generate_pdf] completes on that document; it then prints the output
    name after the fixed word. Further arguments are not read, and with
    an argument the directory is not searched. *)
Theorem main_completes_iff
    (sh : Shell) (w : World) (st st' : store) (line : str) (written : PdfFile) :
  main sh w st = inr (line, written, st') <->
  exists docx_path out_path,
    ((2 <= length (argv sh) /\ argv sh !! 1 = Some docx_path /\
      path_exists sh docx_path = true) \/
     (length (argv sh) < 2 /\
      List.filter (is_docx_file sh) (listdir sh) = [docx_path])) /\
    generate_pdf w docx_path st = Ok ((out_path, written), st') /\
    line = DONE ++ out_path.
Proof.
  unfold main. pose proof (find_single_cases sh) as C. cbv zeta in C.
  split.
  - intros H.
    destruct (Nat.leb_spec 2 (length (argv sh))) as [Hl|Hl].
    + destruct (argv sh !! 1) as [p|] eqn:A; [|discriminate].
      destruct (path_exists sh p) eqn:E; [|discriminate]. cbn [negb] in H.
      destruct (generate_pdf w p st) as [[[out f] s]|e] eqn:G; [|discriminate].
      injection H as <- <- <-. exists p, out.
      split; [left; auto | split; [exact G | reflexivity]].
    + destruct (List.filter (is_docx_file sh) (listdir sh)) as [|f [|g rest]] eqn:F;
        rewrite C in H; try discriminate.
      destruct (generate_pdf w f st) as [[[out f'] s]|e] eqn:G; [|discriminate].
      injection H as <- <- <-. exists f, out.
      split; [right; split; [lia | reflexivity] | split; [exact G | reflexivity]].
  - intros (p & out & [(Hl & A & E) | (Hl & F)] & G & ->).
    + destruct (Nat.leb_spec 2 (length (argv sh))); [|lia].
      rewrite A, E. cbn [negb]. now rewrite G.
    + destruct (Nat.leb_spec 2 (length (argv sh))); [lia|].
      rewrite F in C. rewrite C. now rewrite G.
Qed.

Lemma main_completes_iff_witness :
  let sh := sample_shell [] [lit "notes.txt"; lit "List.DOCX"; lit "old.docx"] in
  let w := sample_world evening ivanov_petrova_doc in
  exists written st',
    main sh w empty_store = inr (DONE ++ lit "2024_01_01" ++ SUFFIX, written, st').
Proof.
  intros sh w.
  pose (r := generate_pdf w (lit "List.DOCX") empty_store).
  vm_compute in r.
  assert (H : generate_pdf w (lit "List.DOCX") empty_store = r)
    by (vm_compute; reflexivity).
  unfold r in H. clear r.
  eexists _, _.
  apply (proj2 (main_completes_iff sh w empty_store _ _ _)).
  exists (lit "List.DOCX"), (lit "2024_01_01" ++ SUFFIX).
  split; [right; split; [cbn; lia | reflexivity]|].
  split; [exact H | reflexivity].
Defined.
